(** * A health-check probe: poll, parse, evaluate

    Shallow embedding of the three variants of the probe found in the
    repository ([main.go] and the two programs of [unnamed/part_000]) and
    proofs about the parser, the threshold rules, the failure counter and
    the polling loop.

    Go values are modelled as follows.
    - [int] is a 64-bit two's complement integer: a [Z] kept in range by
      [Int.wrap].
    - [string] and [[]byte] are [string] (a list of 8-bit [ascii]).
    - [float64] is [spec_float] at precision 53 and maximal exponent 1024,
      with the round-to-nearest-even operations of [SpecFloat].
    - [error] is the inductive type [error]; a function returning
      [(T, error)] returns a pair whose second component is an
      [option error], [None] being [nil].
    - the standard output and the logger are a list of [line]s. *)

From Stdlib Require Import ZArith List String Ascii Bool Lia.
From Stdlib Require Import Floats.SpecFloat.
Import ListNotations.

Local Open Scope string_scope.
Local Open Scope Z_scope.

(** ** Machine integers *)

Module Int.

Definition MaxInt : Z := 2 ^ 63 - 1.
Definition MinInt : Z := - 2 ^ 63.
Definition maxUint64 : Z := 2 ^ 64 - 1.

Definition in_range (z : Z) : Prop := MinInt <= z <= MaxInt.

(** Reduction of a mathematical integer to [int] / [int64]. *)
Definition wrap (z : Z) : Z := (z + 2 ^ 63) mod 2 ^ 64 - 2 ^ 63.

(** Reduction of a mathematical integer to [uint64]. *)
Definition wrapu (z : Z) : Z := z mod 2 ^ 64.

Definition add (x y : Z) : Z := wrap (x + y).
Definition sub (x y : Z) : Z := wrap (x - y).
Definition mul (x y : Z) : Z := wrap (x * y).
Definition neg (x : Z) : Z := wrap (- x).
(** Go's [/] on integers truncates toward zero. *)
Definition quo (x y : Z) : Z := wrap (Z.quot x y).

End Int.

(** ** Errors *)

Inductive NumErrKind : Set := ErrSyntax | ErrRange.

(** [NumError] is [*strconv.NumError]; [errorString s] is the value of
    [errors.New(s)] and of [fmt.Errorf(s)]; [errorf_d format d] is
    [fmt.Errorf(format, d)] for a format with one [%d]; [wrapError format e]
    is [fmt.Errorf(format, e)] for a format with one [%w], an error that
    wraps [e]; [EOF] is the sentinel [io.EOF]. *)
Inductive error : Set :=
| NumError (Func Num : string) (Err : NumErrKind)
| errorString (s : string)
| errorf_d (format : string) (d : Z)
| wrapError (format : string) (err : error)
| EOF.


(** ** [strconv.Atoi]

    The function of the Go standard library, after its source, for the
    64-bit [int]: a fast path for strings of fewer than 19 bytes and
    [ParseInt(s, 10, 0)] for the others. *)

Module strconv.

Definition byte_val (c : ascii) : Z := Z.of_N (N_of_ascii c).

(** [ch -= '0'] on a [byte]. *)
Definition sub0 (c : ascii) : Z := (byte_val c - 48) mod 256.

Definition syntaxError (fn str : string) : error := NumError fn str ErrSyntax.
Definition rangeError (fn str : string) : error := NumError fn str ErrRange.

Definition is_sign (c : ascii) : bool :=
  (byte_val c =? 45) || (byte_val c =? 43).

(** The loop of the fast path of [Atoi]:
    [for _, ch := range []byte(s) { ch -= '0'; if ch > 9 { fail }; n = n*10 + int(ch) }]. *)
Fixpoint fast_loop (s : string) (n : Z) : option Z :=
  match s with
  | EmptyString => Some n
  | String ch s' =>
      let d := sub0 ch in
      if 9 <? d then None else fast_loop s' (Int.add (Int.mul n 10) d)
  end.

Definition lower (c : Z) : Z := Z.lor c 32.

Definition cutoff10 : Z := Int.maxUint64 / 10 + 1.

(** The loop of [ParseUint(s, 10, 64)]. *)
Fixpoint ParseUint_loop (s : string) (n : Z) : Z * option NumErrKind :=
  match s with
  | EmptyString => (n, None)
  | String ch s' =>
      let c := byte_val ch in
      let digit :=
        if (48 <=? c) && (c <=? 57) then Some (c - 48)
        else if (97 <=? lower c) && (lower c <=? 122)
             then Some (lower c - 97 + 10)
             else None in
      match digit with
      | None => (0, Some ErrSyntax)
      | Some d =>
          if 10 <=? d then (0, Some ErrSyntax)
          else if cutoff10 <=? n then (Int.maxUint64, Some ErrRange)
          else
            let n' := Int.wrapu (n * 10) in
            let n1 := Int.wrapu (n' + d) in
            if (n1 <? n') || (Int.maxUint64 <? n1)
            then (Int.maxUint64, Some ErrRange)
            else ParseUint_loop s' n1
      end
  end.

Definition ParseUint10 (s : string) : Z * option NumErrKind :=
  match s with
  | EmptyString => (0, Some ErrSyntax)
  | _ => ParseUint_loop s 0
  end.

(** [ParseInt(s, 10, 0)]; the error is its kind, the caller fills in
    [Func] and [Num]. *)
Definition ParseInt10 (s : string) : Z * option NumErrKind :=
  match s with
  | EmptyString => (0, Some ErrSyntax)
  | String c0 rest =>
      let neg := byte_val c0 =? 45 in
      let s1 := if (byte_val c0 =? 43) || neg then rest else s in
      let '(un, err) := ParseUint10 s1 in
      match err with
      | Some ErrSyntax => (0, Some ErrSyntax)
      | _ =>
          let cutoff := 2 ^ 63 in
          if negb neg && (cutoff <=? un) then (cutoff - 1, Some ErrRange)
          else if neg && (cutoff <? un) then (- cutoff, Some ErrRange)
          else
            let n := Int.wrap un in
            ((if neg then Int.neg n else n), None)
      end
  end.

Definition Atoi (s : string) : Z * option error :=
  let sLen := Z.of_nat (String.length s) in
  if (0 <? sLen) && (sLen <? 19) then
    match s with
    | EmptyString => (0, Some (syntaxError "Atoi" s))
    | String c0 rest =>
        let s1 := if is_sign c0 then rest else s in
        if is_sign c0 && (Z.of_nat (String.length s1) <? 1)
        then (0, Some (syntaxError "Atoi" s))
        else
          match fast_loop s1 0 with
          | None => (0, Some (syntaxError "Atoi" s))
          | Some n => ((if byte_val c0 =? 45 then Int.neg n else n), None)
          end
    end
  else
    let '(i64, err) := ParseInt10 s in
    (i64, option_map (NumError "Atoi" s) err).

End strconv.

(** ** [strings.Split] and [strings.Fields]

    The two functions of the Go standard library the programs split the
    body with. *)

Module strings.

(** [strings.Split(s, sep)] for a separator of one byte: the pieces of [s]
    between the occurrences of [sep]; one more piece than occurrences, so
    at least one, and pieces may be empty. *)
Fixpoint Split (s : string) (sep : ascii) : list string :=
  match s with
  | EmptyString => [EmptyString]
  | String c s' =>
      if Ascii.eqb c sep then EmptyString :: Split s' sep
      else match Split s' sep with
           | t :: ts => String c t :: ts
           | [] => [String c EmptyString]
           end
  end.

Definition b (c : ascii) : Z := strconv.byte_val c.

(** Number of bytes of the white space character at the head of [s], 0 when
    [s] does not start with one. White space is [unicode.IsSpace]: the six
    ASCII characters tab, line feed, vertical tab, form feed, carriage
    return and space, and in UTF-8 U+0085, U+00A0, U+1680, U+2000 to U+200A,
    U+2028, U+2029, U+202F, U+205F and U+3000. The first byte of each of
    these encodings is never a continuation byte, so looking for them byte
    by byte finds the same characters as decoding rune by rune. *)
Definition space_width (s : string) : nat :=
  match s with
  | EmptyString => O
  | String c1 r1 =>
      if (b c1 =? 9) || (b c1 =? 10) || (b c1 =? 11) || (b c1 =? 12)
         || (b c1 =? 13) || (b c1 =? 32) then 1%nat
      else match r1 with
           | EmptyString => O
           | String c2 r2 =>
               if (b c1 =? 194) && ((b c2 =? 133) || (b c2 =? 160)) then 2%nat
               else match r2 with
                    | EmptyString => O
                    | String c3 _ =>
                        if ((b c1 =? 225) && (b c2 =? 154) && (b c3 =? 128))
                           || ((b c1 =? 226) && (b c2 =? 128)
                               && (((128 <=? b c3) && (b c3 <=? 138))
                                   || (b c3 =? 168) || (b c3 =? 169)
                                   || (b c3 =? 175)))
                           || ((b c1 =? 226) && (b c2 =? 129) && (b c3 =? 159))
                           || ((b c1 =? 227) && (b c2 =? 128) && (b c3 =? 128))
                        then 3%nat else O
                    end
           end
  end.

Definition flush (tok : string) : list string :=
  match tok with
  | EmptyString => []
  | _ => [tok]
  end.

(** [skip] counts the bytes still to drop of a white space character of
    several bytes; [tok] is the field being read. *)
Fixpoint Fields_from (s : string) (skip : nat) (tok : string) : list string :=
  match s with
  | EmptyString => flush tok
  | String c s' =>
      match skip with
      | S k => Fields_from s' k tok
      | O =>
          match space_width s with
          | O => Fields_from s' O (tok ++ String c EmptyString)
          | S k => flush tok ++ Fields_from s' k EmptyString
          end
      end
  end.

(** [strings.Fields(s)]: the maximal runs of bytes free of white space. *)
Definition Fields (s : string) : list string := Fields_from s O EmptyString.

End strings.

(** ** [float64] *)

Module F.

Definition float64 : Set := spec_float.
Definition prec : Z := 53.
Definition emax : Z := 1024.

(** [float64(n)] for an integer [n], rounded to nearest even. *)
Definition of_int (n : Z) : float64 := binary_normalize prec emax n 0 false.

Definition zero : float64 := S754_zero false.
Definition mul : float64 -> float64 -> float64 := SFmul prec emax.
Definition div : float64 -> float64 -> float64 := SFdiv prec emax.
(** [x > y] *)
Definition gt (x y : float64) : bool := SFltb y x.

(** [math.Floor]. *)
Definition Floor (x : float64) : float64 :=
  match x with
  | S754_finite s m e =>
      if 0 <=? e then x
      else
        let q := (if s then Z.neg m else Z.pos m) / 2 ^ (- e) in
        binary_normalize prec emax q 0 s
  | _ => x
  end.

(** [int(x)]: truncation toward zero. When the value does not fit [int] the
    Go specification leaves the result to the implementation; the value
    taken here is the one of amd64. *)
Definition to_int (x : float64) : Z :=
  match x with
  | S754_zero _ => 0
  | S754_finite s m e =>
      let a := if 0 <=? e then Z.pos m * 2 ^ e else Z.pos m / 2 ^ (- e) in
      let v := if s then - a else a in
      if (Int.MinInt <=? v) && (v <=? Int.MaxInt) then v else Int.MinInt
  | _ => Int.MinInt
  end.

End F.

(** ** The metrics record *)

Record Metrics : Set := mkMetrics {
  LoadAverage : Z;
  RamTotalBytes : Z;
  RamUsageBytes : Z;
  DiskTotalBytes : Z;
  DiskUsageBytes : Z;
  NetworkBandwidthBytesPerSecond : Z;
  NetworkLoadBytesPerSecond : Z
}.

(** [Metrics{}] *)
Definition Metrics_zero : Metrics := mkMetrics 0 0 0 0 0 0 0.

Definition set_LoadAverage (v : Z) (m : Metrics) : Metrics :=
  mkMetrics v (RamTotalBytes m) (RamUsageBytes m) (DiskTotalBytes m)
    (DiskUsageBytes m) (NetworkBandwidthBytesPerSecond m)
    (NetworkLoadBytesPerSecond m).
Definition set_RamTotalBytes (v : Z) (m : Metrics) : Metrics :=
  mkMetrics (LoadAverage m) v (RamUsageBytes m) (DiskTotalBytes m)
    (DiskUsageBytes m) (NetworkBandwidthBytesPerSecond m)
    (NetworkLoadBytesPerSecond m).
Definition set_RamUsageBytes (v : Z) (m : Metrics) : Metrics :=
  mkMetrics (LoadAverage m) (RamTotalBytes m) v (DiskTotalBytes m)
    (DiskUsageBytes m) (NetworkBandwidthBytesPerSecond m)
    (NetworkLoadBytesPerSecond m).
Definition set_DiskTotalBytes (v : Z) (m : Metrics) : Metrics :=
  mkMetrics (LoadAverage m) (RamTotalBytes m) (RamUsageBytes m) v
    (DiskUsageBytes m) (NetworkBandwidthBytesPerSecond m)
    (NetworkLoadBytesPerSecond m).
Definition set_DiskUsageBytes (v : Z) (m : Metrics) : Metrics :=
  mkMetrics (LoadAverage m) (RamTotalBytes m) (RamUsageBytes m)
    (DiskTotalBytes m) v (NetworkBandwidthBytesPerSecond m)
    (NetworkLoadBytesPerSecond m).
Definition set_NetworkBandwidthBytesPerSecond (v : Z) (m : Metrics) : Metrics :=
  mkMetrics (LoadAverage m) (RamTotalBytes m) (RamUsageBytes m)
    (DiskTotalBytes m) (DiskUsageBytes m) v (NetworkLoadBytesPerSecond m).
Definition set_NetworkLoadBytesPerSecond (v : Z) (m : Metrics) : Metrics :=
  mkMetrics (LoadAverage m) (RamTotalBytes m) (RamUsageBytes m)
    (DiskTotalBytes m) (DiskUsageBytes m) (NetworkBandwidthBytesPerSecond m) v.

(** The seven fields in the order [parseMetrics] fills them, with the setter
    of each and the format of the error of each. *)
Inductive field : Set :=
| fLoadAverage | fRamTotalBytes | fRamUsageBytes | fDiskTotalBytes
| fDiskUsageBytes | fNetworkBandwidthBytesPerSecond
| fNetworkLoadBytesPerSecond.

Definition field_index (f : field) : nat :=
  match f with
  | fLoadAverage => 0 | fRamTotalBytes => 1 | fRamUsageBytes => 2
  | fDiskTotalBytes => 3 | fDiskUsageBytes => 4
  | fNetworkBandwidthBytesPerSecond => 5 | fNetworkLoadBytesPerSecond => 6
  end%nat.

Definition field_set (f : field) : Z -> Metrics -> Metrics :=
  match f with
  | fLoadAverage => set_LoadAverage
  | fRamTotalBytes => set_RamTotalBytes
  | fRamUsageBytes => set_RamUsageBytes
  | fDiskTotalBytes => set_DiskTotalBytes
  | fDiskUsageBytes => set_DiskUsageBytes
  | fNetworkBandwidthBytesPerSecond => set_NetworkBandwidthBytesPerSecond
  | fNetworkLoadBytesPerSecond => set_NetworkLoadBytesPerSecond
  end.

Definition field_get (f : field) : Metrics -> Z :=
  match f with
  | fLoadAverage => LoadAverage
  | fRamTotalBytes => RamTotalBytes
  | fRamUsageBytes => RamUsageBytes
  | fDiskTotalBytes => DiskTotalBytes
  | fDiskUsageBytes => DiskUsageBytes
  | fNetworkBandwidthBytesPerSecond => NetworkBandwidthBytesPerSecond
  | fNetworkLoadBytesPerSecond => NetworkLoadBytesPerSecond
  end.

Definition field_format (f : field) : string :=
  match f with
  | fLoadAverage => "LoadAverage parsing error: %w"
  | fRamTotalBytes => "RamTotalBytes parsing error: %w"
  | fRamUsageBytes => "RamUsageBytes parsing error: %w"
  | fDiskTotalBytes => "DiskTotalBytes parsing error: %w"
  | fDiskUsageBytes => "DiskUsageBytes parsing error: %w"
  | fNetworkBandwidthBytesPerSecond =>
      "NetworkBandwidthBytesPerSecond parsing error: %w"
  | fNetworkLoadBytesPerSecond => "NetworkLoadBytesPerSecond parsing error: %w"
  end.

Definition fields : list field :=
  [fLoadAverage; fRamTotalBytes; fRamUsageBytes; fDiskTotalBytes;
   fDiskUsageBytes; fNetworkBandwidthBytesPerSecond;
   fNetworkLoadBytesPerSecond].

(** ** [parseMetrics]

    A computation that may panic is an [option]: [None] is a run-time panic
    (here: an index out of range). *)

(** One statement of [parseMetrics],
    [if m.F, err = strconv.Atoi(values[i]); err != nil { return fmt.Errorf("F parsing error: %w", err) }],
    followed by the rest [k] of the function. The field is assigned also when
    [Atoi] fails. *)
Definition assign (f : field) (values : list string)
    (k : Metrics -> option (Metrics * option error)) (m : Metrics)
  : option (Metrics * option error) :=
  match nth_error values (field_index f) with
  | None => None
  | Some v =>
      let '(n, err) := strconv.Atoi v in
      let m' := field_set f n m in
      match err with
      | Some e => Some (m', Some (wrapError (field_format f) e))
      | None => k m'
      end
  end.

(** [parseMetrics(values, &m)]: the metrics after the call and the error. *)
Definition parseMetrics (values : list string) (m : Metrics)
  : option (Metrics * option error) :=
  assign fLoadAverage values
    (assign fRamTotalBytes values
      (assign fRamUsageBytes values
        (assign fDiskTotalBytes values
          (assign fDiskUsageBytes values
            (assign fNetworkBandwidthBytesPerSecond values
              (assign fNetworkLoadBytesPerSecond values
                (fun m' => Some (m', None)))))))) m.

(** ** The HTTP exchange, as the program sees it *)

(** The body of a response: the chunks the successive reads of the
    connection deliver, and how the stream ends, [None] for a clean end of
    file and [Some e] for a failure. *)
Record Body : Set := mkBody {
  chunks : list string;
  end_err : option error
}.

Record Response : Set := mkResponse {
  ContentType : string;   (* resp.Header.Get("Content-Type") *)
  body : Body
}.

(** The result of [http.Get(url)]. *)
Inductive GetResult : Set :=
| GetFailed (err : error)
| GetOk (resp : Response).

(** [ioutil.ReadAll(resp.Body)]: all the bytes and the failure that stopped
    the reading, if any; the end of file is not an error for [ReadAll]. *)
Definition ReadAll (bd : Body) : string * option error :=
  (String.concat "" (chunks bd),
   match end_err bd with
   | Some EOF => None
   | other => other
   end).

(** [reader.Read(buffer)] on a fresh [bufio.Reader] with a buffer of 1024
    bytes: one read of the connection, of which at most 1024 bytes are
    copied. Returns [buffer[:n]] and the error. *)
Definition Read1024 (bd : Body) : string * option error :=
  match chunks bd with
  | [] => (EmptyString,
           Some match end_err bd with Some e => e | None => EOF end)
  | c :: _ => (String.substring 0 1024 c, None)
  end.

(** ** Output *)

Inductive rule : Set := Load | Memory | Disk | Network.

(** An argument of a formatting verb. *)
Inductive value : Set := VInt (n : Z) | VFloat (x : F.float64).

(** One line written by the program. [Alert r v] is the message of rule [r]
    with the value [v] it prints. *)
Inductive line : Set :=
| ErrorLine (e : error)       (* fmt.Println(err.Error()) *)
| Unavailable                 (* "Unable to fetch server statistic" *)
| Alert (r : rule) (v : value)
| ShuttingDown.               (* "Shutting down..." *)

Definition is_alert (l : line) : bool :=
  match l with Alert _ _ => true | _ => false end.

Definition alert_rule (l : line) : option rule :=
  match l with Alert r _ => Some r | _ => None end.

(** The outcome of one call of [checkMetrics]: the lines written, the
    counter behind [failuresCount] after the call, and the error returned. *)
Record Outcome : Set := mkOutcome {
  written : list line;
  counter : Z;
  returned : option error
}.

Definition MiB : Z := 1024 * 1024.

(** ** [main.go] *)

Module MainGo.

Definition calculatePercentage (used total : Z) : F.float64 :=
  if total =? 0 then F.zero
  else F.mul (F.div (F.of_int used) (F.of_int total)) (F.of_int 100).

(** Lines 103 to 113 of [getMetrics]: from the body read to the result. *)
Definition getMetrics_decode (body : string) (m : Metrics)
  : option (Metrics * option error) :=
  let values := strings.Fields body in
  if negb (Z.of_nat (List.length values) =? 7) then
    Some (m, Some (errorf_d "unexpected number of metrics: expected 7, got %d"
                     (Z.of_nat (List.length values))))
  else
    match parseMetrics values m with
    | None => None
    | Some (m', Some err) =>
        Some (m', Some (wrapError "error parsing metrics: %w" err))
    | Some (m', None) => Some (m', None)
    end.

Definition getMetrics (get : GetResult) : option (Metrics * option error) :=
  let m := Metrics_zero in
  match get with
  | GetFailed err => Some (m, Some (wrapError "error fetching metrics: %w" err))
  | GetOk resp =>
      if negb (ContentType resp =? "text/plain")%string then
        Some (m, Some (errorString "Content-Type mismatch"))
      else
        let '(bytes, err) := ReadAll (body resp) in
        match err with
        | Some e => Some (m, Some (wrapError "error reading response body: %w" e))
        | None => getMetrics_decode bytes m
        end
  end.

(** Lines 61 to 80 of [checkMetrics]: the threshold rules. *)
Definition checkMetrics_rules (m : Metrics) : list line :=
  (if LoadAverage m >? 30 then [Alert Load (VInt (LoadAverage m))] else [])
  ++
  (let ramUsagePercentage :=
     calculatePercentage (RamUsageBytes m) (RamTotalBytes m) in
   if F.gt ramUsagePercentage (F.of_int 80)
   then [Alert Memory (VFloat ramUsagePercentage)] else [])
  ++
  (let diskUsagePercentage :=
     calculatePercentage (DiskUsageBytes m) (DiskTotalBytes m) in
   if F.gt diskUsagePercentage (F.of_int 90) then
     let leftDiskMemoryMB :=
       Int.quo (Int.sub (DiskTotalBytes m) (DiskUsageBytes m)) MiB in
     [Alert Disk (VInt leftDiskMemoryMB)]
   else [])
  ++
  (let networkBandwidthUsagePercentage :=
     calculatePercentage (NetworkLoadBytesPerSecond m)
       (NetworkBandwidthBytesPerSecond m) in
   if F.gt networkBandwidthUsagePercentage (F.of_int 90) then
     let leftNetworkBandwidthMb :=
       Int.mul
         (Int.quo (Int.sub (NetworkBandwidthBytesPerSecond m)
                     (NetworkLoadBytesPerSecond m)) MiB) 8 in
     [Alert Network (VInt leftNetworkBandwidthMb)]
   else []).

Definition checkMetrics (get : GetResult) (failuresCount : Z)
  : option Outcome :=
  match getMetrics get with
  | None => None
  | Some (m, Some err) =>
      let failuresCount := Int.add failuresCount 1 in
      Some (mkOutcome
              (if 3 <=? failuresCount then [Unavailable] else [])
              failuresCount (Some err))
  | Some (m, None) =>
      Some (mkOutcome (checkMetrics_rules m) 0 None)
  end.

(** What [main] writes when the signal arrives. *)
Definition on_quit : list line := [ShuttingDown].

End MainGo.

(** ** The first program of [unnamed/part_000] *)

Module PartA.

Definition calculatePercentage (used total : Z) : Z :=
  if total =? 0 then 0
  else F.to_int
         (F.Floor
            (F.mul (F.div (F.of_int used) (F.of_int total)) (F.of_int 100))).

(** Lines 106 to 116 of [getMetrics]. *)
Definition getMetrics_decode (body : string) (m : Metrics)
  : option (Metrics * option error) :=
  let values := strings.Split body "," in
  if negb (Z.of_nat (List.length values) =? 7) then
    Some (m, Some (errorf_d "unexpected number of metrics: expected 7, got %d"
                     (Z.of_nat (List.length values))))
  else
    match parseMetrics values m with
    | None => None
    | Some (m', Some err) =>
        Some (m', Some (wrapError "error parsing metrics: %w" err))
    | Some (m', None) => Some (m', None)
    end.

Definition getMetrics (get : GetResult) : option (Metrics * option error) :=
  let m := Metrics_zero in
  match get with
  | GetFailed err => Some (m, Some (wrapError "error fetching metrics: %w" err))
  | GetOk resp =>
      let '(bytes, err) := Read1024 (body resp) in
      match err with
      | Some EOF | None => getMetrics_decode bytes m
      | Some _ => Some (m, Some (errorString "error reading"))
      end
  end.

(** Lines 61 to 80 of [checkMetrics]. *)
Definition checkMetrics_rules (m : Metrics) : list line :=
  (if LoadAverage m >? 30 then [Alert Load (VInt (LoadAverage m))] else [])
  ++
  (let ramUsagePercentage :=
     calculatePercentage (RamUsageBytes m) (RamTotalBytes m) in
   if ramUsagePercentage >? 80
   then [Alert Memory (VInt ramUsagePercentage)] else [])
  ++
  (let diskUsagePercentage :=
     calculatePercentage (DiskUsageBytes m) (DiskTotalBytes m) in
   if diskUsagePercentage >? 90 then
     let leftDiskMemoryMB :=
       Int.quo (Int.sub (DiskTotalBytes m) (DiskUsageBytes m)) MiB in
     [Alert Disk (VInt leftDiskMemoryMB)]
   else [])
  ++
  (let networkBandwidthUsagePercentage :=
     calculatePercentage (NetworkLoadBytesPerSecond m)
       (NetworkBandwidthBytesPerSecond m) in
   if networkBandwidthUsagePercentage >? 90 then
     let leftNetworkBandwidthMb :=
       F.mul
         (F.div
            (F.of_int (Int.sub (NetworkBandwidthBytesPerSecond m)
                         (NetworkLoadBytesPerSecond m)))
            (F.of_int MiB))
         (F.of_int 8) in
     [Alert Network (VFloat leftNetworkBandwidthMb)]
   else []).

Definition checkMetrics (get : GetResult) (failuresCount : Z)
  : option Outcome :=
  match getMetrics get with
  | None => None
  | Some (m, Some err) =>
      let failuresCount := Int.add failuresCount 1 in
      Some (mkOutcome
              (ErrorLine err
               :: (if 3 <=? failuresCount then [Unavailable] else []))
              failuresCount (Some err))
  | Some (m, None) =>
      Some (mkOutcome (checkMetrics_rules m) 0 None)
  end.

Definition on_quit : list line := [].

End PartA.

(** ** The second program of [unnamed/part_000] *)

Module PartB.

Definition calculatePercentage (used total : Z) : F.float64 :=
  if total =? 0 then F.zero
  else F.mul (F.div (F.of_int used) (F.of_int total)) (F.of_int 100).

(** Lines 251 to 261 of the file, in [getMetrics]. *)
Definition getMetrics_decode (body : string) (m : Metrics)
  : option (Metrics * option error) :=
  let values := strings.Split body "," in
  if negb (Z.of_nat (List.length values) =? 7) then
    Some (m, Some (errorf_d "unexpected number of metrics: expected 7, got %d"
                     (Z.of_nat (List.length values))))
  else
    match parseMetrics values m with
    | None => None
    | Some (m', Some err) =>
        Some (m', Some (wrapError "error parsing metrics: %w" err))
    | Some (m', None) => Some (m', None)
    end.

Definition getMetrics (get : GetResult) : option (Metrics * option error) :=
  let m := Metrics_zero in
  match get with
  | GetFailed err => Some (m, Some (wrapError "error fetching metrics: %w" err))
  | GetOk resp =>
      let '(bytes, err) := ReadAll (body resp) in
      match err with
      | Some e => Some (m, Some (wrapError "error reading response body: %w" e))
      | None => getMetrics_decode bytes m
      end
  end.

(** Lines 209 to 228 of the file, in [checkMetrics]. *)
Definition checkMetrics_rules (m : Metrics) : list line :=
  (if LoadAverage m >? 30 then [Alert Load (VInt (LoadAverage m))] else [])
  ++
  (let ramUsagePercentage :=
     calculatePercentage (RamUsageBytes m) (RamTotalBytes m) in
   if F.gt ramUsagePercentage (F.of_int 80)
   then [Alert Memory (VFloat ramUsagePercentage)] else [])
  ++
  (let diskUsagePercentage :=
     calculatePercentage (DiskUsageBytes m) (DiskTotalBytes m) in
   if F.gt diskUsagePercentage (F.of_int 90) then
     let leftDiskMemoryMB :=
       Int.quo (Int.sub (DiskTotalBytes m) (DiskUsageBytes m)) MiB in
     [Alert Disk (VInt leftDiskMemoryMB)]
   else [])
  ++
  (let networkBandwidthUsagePercentage :=
     calculatePercentage (NetworkLoadBytesPerSecond m)
       (NetworkBandwidthBytesPerSecond m) in
   if F.gt networkBandwidthUsagePercentage (F.of_int 90) then
     let leftNetworkBandwidthMb :=
       Int.mul
         (Int.quo (Int.sub (NetworkBandwidthBytesPerSecond m)
                     (NetworkLoadBytesPerSecond m)) MiB) 8 in
     [Alert Network (VInt leftNetworkBandwidthMb)]
   else []).

Definition checkMetrics (get : GetResult) (failuresCount : Z)
  : option Outcome :=
  match getMetrics get with
  | None => None
  | Some (m, Some err) =>
      let failuresCount := Int.add failuresCount 1 in
      Some (mkOutcome
              (ErrorLine err
               :: (if 3 <=? failuresCount then [Unavailable] else []))
              failuresCount (Some err))
  | Some (m, None) =>
      Some (mkOutcome (checkMetrics_rules m) 0 None)
  end.

Definition on_quit : list line := [].

End PartB.

(** ** [main]: the polling loop *)

(** Where the loop is: waiting in [select], inside [checkMetrics] for the
    tick whose request has the result [get], returned from [main], or
    stopped by a run-time panic. *)
Inductive phase : Set :=
| Idle
| Running (get : GetResult)
| Terminated
| Panicked.

Record Loop : Set := mkLoop {
  at_phase : phase;
  failuresCount : Z;
  stdout : list line
}.

(** What [select] receives: a tick of the ticker, together with the result
    the request of that cycle is going to have, or a signal on [quit]. *)
Inductive event : Set :=
| Tick (get : GetResult)
| Quit.

Section Main.

Variable checkMetrics : GetResult -> Z -> option Outcome.
Variable on_quit : list line.

Definition main_init : Loop := mkLoop Idle 0 [].

Inductive step : Loop -> Loop -> Prop :=
| step_tick : forall fc out get,
    step (mkLoop Idle fc out) (mkLoop (Running get) fc out)
| step_quit : forall fc out,
    step (mkLoop Idle fc out) (mkLoop Terminated fc (out ++ on_quit))
| step_cycle : forall fc out get o,
    checkMetrics get fc = Some o ->
    step (mkLoop (Running get) fc out)
         (mkLoop Idle (counter o) (out ++ written o))
| step_panic : forall fc out get,
    checkMetrics get fc = None ->
    step (mkLoop (Running get) fc out) (mkLoop Panicked fc out).

Inductive reachable : Loop -> Prop :=
| reach_init : reachable main_init
| reach_step : forall s s', reachable s -> step s s' -> reachable s'.

(** One iteration of [for { select { ... } }] from [Idle]. *)
Definition iteration (s : Loop) (e : event) : Loop :=
  match at_phase s with
  | Idle =>
      match e with
      | Quit => mkLoop Terminated (failuresCount s) (stdout s ++ on_quit)
      | Tick get =>
          match checkMetrics get (failuresCount s) with
          | Some o => mkLoop Idle (counter o) (stdout s ++ written o)
          | None => mkLoop Panicked (failuresCount s) (stdout s)
          end
      end
  | _ => s
  end.

Definition main (events : list event) : Loop :=
  fold_left iteration events main_init.

(** The outcomes of the successive cycles of a run that only ticks. *)
Fixpoint cycles (gets : list GetResult) (fc : Z) : list (option Outcome) :=
  match gets with
  | [] => []
  | get :: rest =>
      match checkMetrics get fc with
      | Some o => Some o :: cycles rest (counter o)
      | None => [None]
      end
  end.

End Main.

(** A cycle fails when [getMetrics] returns an error. *)
Definition failed (getMetrics : GetResult -> option (Metrics * option error))
    (get : GetResult) : bool :=
  match getMetrics get with
  | Some (_, Some _) => true
  | _ => false
  end.

(** Number of failed cycles at the end of a run, back to the last success. *)
Fixpoint leading (f : GetResult -> bool) (l : list GetResult) : nat :=
  match l with
  | g :: l' => if f g then S (leading f l') else O
  | [] => O
  end.

Definition consecutive_failures (f : GetResult -> bool) (l : list GetResult)
  : nat := leading f (rev l).

(** ** Decimal numerals *)

Definition is_digit (c : ascii) : bool :=
  (48 <=? strconv.byte_val c) && (strconv.byte_val c <=? 57).

Fixpoint all_digits (s : string) : bool :=
  match s with
  | EmptyString => true
  | String c s' => is_digit c && all_digits s'
  end.

(** A decimal numeral without sign: one digit or more. *)
Definition numeral (s : string) : bool :=
  match s with
  | EmptyString => false
  | _ => all_digits s
  end.

(** The number a string of digits denotes, after the digits of [acc]. *)
Fixpoint digits_value (s : string) (acc : Z) : Z :=
  match s with
  | EmptyString => acc
  | String c s' => digits_value s' (10 * acc + (strconv.byte_val c - 48))
  end.

Definition numeral_value (s : string) : Z := digits_value s 0.

(** A decimal numeral with an optional sign, and the integer it denotes. *)
Definition signed_numeral (s : string) : option Z :=
  match s with
  | EmptyString => None
  | String c r =>
      if strconv.byte_val c =? 45
      then if numeral r then Some (- numeral_value r) else None
      else if strconv.byte_val c =? 43
      then if numeral r then Some (numeral_value r) else None
      else if numeral s then Some (numeral_value s) else None
  end.

(** A token [Atoi] converts: a signed numeral of an integer that fits [int]. *)
Definition valid_int (s : string) : bool :=
  match signed_numeral s with
  | Some v => (Int.MinInt <=? v) && (v <=? Int.MaxInt)
  | None => false
  end.

(** The digits of [n], most significant first; [fuel] bounds their number. *)
Fixpoint digits_of (fuel : nat) (n : Z) (acc : string) : string :=
  match fuel with
  | O => acc
  | S fuel' =>
      let acc' := String (ascii_of_N (Z.to_N (48 + n mod 10))) acc in
      if n <? 10 then acc' else digits_of fuel' (n / 10) acc'
  end.

(** The decimal rendering of a non-negative [int] (as [strconv.Itoa]); 19
    digits are enough below [2^63]. *)
Definition render_int (n : Z) : string := digits_of 19 n EmptyString.

(** The payload of seven integers joined by the separator [sep]. *)
Definition render (sep : string) (m : Metrics) : string :=
  String.concat sep (map (fun f => render_int (field_get f m)) fields).

(** ** The three programs side by side *)

Inductive program : Set :=
| main_go      (* main.go *)
| part_a       (* the first program of unnamed/part_000 *)
| part_b.      (* the second program of unnamed/part_000 *)

(** The separator of the fields of a payload. *)
Definition separator (p : program) : string :=
  match p with
  | main_go => " "
  | part_a | part_b => ","
  end.

(** How the program splits the body into values. *)
Definition tokenize (p : program) (body : string) : list string :=
  match p with
  | main_go => strings.Fields body
  | part_a | part_b => strings.Split body ","
  end.

(** The parser: from the bytes of the body to the metrics and the error. *)
Definition parse (p : program) (body : string)
  : option (Metrics * option error) :=
  match p with
  | main_go => MainGo.getMetrics_decode body Metrics_zero
  | part_a => PartA.getMetrics_decode body Metrics_zero
  | part_b => PartB.getMetrics_decode body Metrics_zero
  end.

Definition getMetrics (p : program) : GetResult -> option (Metrics * option error) :=
  match p with
  | main_go => MainGo.getMetrics
  | part_a => PartA.getMetrics
  | part_b => PartB.getMetrics
  end.

Definition checkMetrics (p : program) : GetResult -> Z -> option Outcome :=
  match p with
  | main_go => MainGo.checkMetrics
  | part_a => PartA.checkMetrics
  | part_b => PartB.checkMetrics
  end.

(** The evaluator: the alerts of a snapshot. *)
Definition evaluate (p : program) : Metrics -> list line :=
  match p with
  | main_go => MainGo.checkMetrics_rules
  | part_a => PartA.checkMetrics_rules
  | part_b => PartB.checkMetrics_rules
  end.

Definition on_quit (p : program) : list line :=
  match p with
  | main_go => MainGo.on_quit
  | part_a => PartA.on_quit
  | part_b => PartB.on_quit
  end.

(** The percentage as the program computes it. *)
Definition percentage (p : program) (used total : Z) : value :=
  match p with
  | main_go => VFloat (MainGo.calculatePercentage used total)
  | part_a => VInt (PartA.calculatePercentage used total)
  | part_b => VFloat (PartB.calculatePercentage used total)
  end.

(** [v > t] for a percentage [v] and an integer constant [t]. *)
Definition exceeds (v : value) (t : Z) : bool :=
  match v with
  | VInt n => n >? t
  | VFloat x => F.gt x (F.of_int t)
  end.

(** The condition of each threshold rule. *)
Definition fires (p : program) (m : Metrics) (r : rule) : bool :=
  match r with
  | Load => LoadAverage m >? 30
  | Memory => exceeds (percentage p (RamUsageBytes m) (RamTotalBytes m)) 80
  | Disk => exceeds (percentage p (DiskUsageBytes m) (DiskTotalBytes m)) 90
  | Network =>
      exceeds (percentage p (NetworkLoadBytesPerSecond m)
                 (NetworkBandwidthBytesPerSecond m)) 90
  end.


(** A response of type [text/plain] whose body arrives whole, in one read. *)
Definition respond (payload : string) : GetResult :=
  GetOk (mkResponse "text/plain" (mkBody [payload] None)).

(** The snapshot of the evaluator scenario. *)
Definition scenario : Metrics :=
  mkMetrics 35 1000 900 1000000 950000 1000000 950000.

(** ** Auxiliary definitions of the proofs *)

Definition fits (v : Z) : bool := (Int.MinInt <=? v) && (v <=? Int.MaxInt).

(** The result [strconv] functions have on a string, stated on what the
    string denotes. *)
Definition conversion_spec (fn : string) (s : string)
    (result : Z * option error) : Prop :=
  match signed_numeral s with
  | Some v =>
      if fits v then result = (v, None)
      else exists c, result = (c, Some (NumError fn s ErrRange))
  | None => exists c k, result = (c, Some (NumError fn s k))
  end.

Ltac int_consts :=
  unfold strconv.cutoff10, Int.in_range, Int.MaxInt, Int.MinInt,
    Int.maxUint64, MiB in *;
  change (2 ^ 64) with 18446744073709551616 in *;
  change (2 ^ 63) with 9223372036854775808 in *;
  change (18446744073709551616 - 1) with 18446744073709551615 in *;
  change (18446744073709551615 / 10 + 1) with 1844674407370955162 in *.

(** The statements of [parseMetrics] for the fields [fs], in that order. *)
Fixpoint assign_all (fs : list field) (values : list string) (m : Metrics)
  : option (Metrics * option error) :=
  match fs with
  | [] => Some (m, None)
  | f :: fs' => assign f values (assign_all fs' values) m
  end.

(** The integer a valid token denotes. *)
Definition int_of (s : string) : Z :=
  match signed_numeral s with
  | Some v => v
  | None => 0
  end.

(** The token of field [f] among [values]. *)
Definition token (f : field) (values : list string) : string :=
  nth (field_index f) values EmptyString.

(** The fields [parseMetrics] fills before [f]. *)
Definition before (f : field) : list field :=
  firstn (field_index f) fields.

Definition after (f : field) : list field :=
  skipn (S (field_index f)) fields.

Fixpoint all_bytes (p : ascii -> bool) (s : string) : bool :=
  match s with
  | EmptyString => true
  | String c s' => p c && all_bytes p s'
  end.

(** A printable ASCII byte that is not the space. *)
Definition word_byte (c : ascii) : bool :=
  (33 <=? strconv.byte_val c) && (strconv.byte_val c <=? 126).

Definition not_comma (c : ascii) : bool := negb (Ascii.eqb c ",").

(** A non-empty token of printable bytes free of spaces and commas: what
    either tokenizer leaves in one piece. *)
Definition word (s : string) : bool :=
  match s with
  | EmptyString => false
  | _ => all_bytes (fun c => word_byte c && not_comma c) s
  end.

(** The error of [getMetrics] when the number of values is not 7. *)
Definition is_field_count_error (e : error) : bool :=
  match e with
  | errorf_d format _ =>
      (format =? "unexpected number of metrics: expected 7, got %d")%string
  | _ => false
  end.

(** The error of [getMetrics] when [parseMetrics] fails on field [f] with
    the error [e] of [strconv.Atoi]. *)
Definition conversion_error (f : field) (e : error) : error :=
  wrapError "error parsing metrics: %w" (wrapError (field_format f) e).

(** The snapshot whose fields are the integers of the seven tokens. *)
Definition snapshot_of (values : list string) : Metrics :=
  mkMetrics
    (int_of (token fLoadAverage values))
    (int_of (token fRamTotalBytes values))
    (int_of (token fRamUsageBytes values))
    (int_of (token fDiskTotalBytes values))
    (int_of (token fDiskUsageBytes values))
    (int_of (token fNetworkBandwidthBytesPerSecond values))
    (int_of (token fNetworkLoadBytesPerSecond values)).

(** What the three [getMetrics] do with the values once the body is split. *)
Definition decode_values (values : list string) (m : Metrics)
  : option (Metrics * option error) :=
  if negb (Z.of_nat (List.length values) =? 7) then
    Some (m, Some (errorf_d "unexpected number of metrics: expected 7, got %d"
                     (Z.of_nat (List.length values))))
  else
    match parseMetrics values m with
    | None => None
    | Some (m', Some err) =>
        Some (m', Some (wrapError "error parsing metrics: %w" err))
    | Some (m', None) => Some (m', None)
    end.

Definition fails_with_field_count (r : option (Metrics * option error)) : bool :=
  match r with
  | Some (_, Some e) => is_field_count_error e
  | _ => false
  end.

Definition nonempty (t : string) : bool :=
  match t with
  | EmptyString => false
  | _ => true
  end.

(** The sentence on the field count as the specification words it: the
    parser fails with the field-count error if and only if the split does
    not yield exactly seven non-empty tokens. *)
Definition field_count_as_stated (p : program) (body : string) : Prop :=
  fails_with_field_count (parse p body) = true
  <-> ~ (List.length (tokenize p body) = 7%nat
         /\ forallb nonempty (tokenize p body) = true).

(** The sentence on partial snapshots as the specification words it: the
    metrics value a failing parse produces holds no field of the payload, it
    is still the zero value it started from. *)
Definition no_partial_snapshot_as_stated (p : program) (body : string) : Prop :=
  forall m e, parse p body = Some (m, Some e) -> m = Metrics_zero.

(** The bytes of the body of [resp] that [getMetrics] splits into values:
    what the single read of the first program of [part_000] returns, and
    what [ReadAll] returns in the two other programs. *)
Definition received (p : program) (resp : Response) : string :=
  match p with
  | part_a => fst (Read1024 (body resp))
  | main_go | part_b => fst (ReadAll (body resp))
  end.

Definition no_alert (lines : list line) : bool :=
  forallb (fun l => negb (is_alert l)) lines.

(** The number a printed value stands for, as a [float64]. *)
Definition value_float (v : value) : F.float64 :=
  match v with
  | VInt n => F.of_int n
  | VFloat x => x
  end.

(** [float64(used) / float64(total) * 100] *)
Definition ratio100 (used total : Z) : F.float64 :=
  F.mul (F.div (F.of_int used) (F.of_int total)) (F.of_int 100).







(** The sentence on the percentage as the specification words it: the value
    returned is 0 when [total] is 0 and [used/total*100] otherwise. *)
Definition percentage_as_stated (p : program) (used total : Z) : Prop :=
  SFeqb (value_float (percentage p used total))
        (if total =? 0 then F.zero else ratio100 used total) = true.

(** A payload with negative numbers. *)
Definition negative_payload (p : program) : string :=
  String.concat (separator p)
    ["-5"; "-1000"; "-900"; "1000000"; "950000"; "1000000"; "950000"].

Definition is_unavailable (l : line) : bool :=
  match l with Unavailable => true | _ => false end.

(** The cycle wrote the diagnostic "Unable to fetch server statistic". *)
Definition unavailable (o : Outcome) : bool :=
  existsb is_unavailable (written o).

(** The cycle returned an error. *)
Definition errored (o : Outcome) : bool :=
  match returned o with Some _ => true | None => false end.

(** The requests of cycle 0 to cycle [i]. *)
Definition upto (i : nat) (gets : list GetResult) : list GetResult :=
  firstn (S i) gets.

Definition is_quit (e : event) : bool :=
  match e with Quit => true | Tick _ => false end.

(** A request that fails in the transport. *)
Definition refused : GetResult := GetFailed (errorString "connection refused").

(** What the loop of program [p] can do from the state [s]: it is not stopped
    by a panic; a cycle under way completes, whatever its request gave, and
    leaves the loop waiting again; the loop moves to [Terminated] only from
    [Idle] and by the signal; and nothing follows [Terminated]. *)
Definition keeps_polling (p : program) (s : Loop) : Prop :=
  at_phase s <> Panicked
  /\ (forall get, at_phase s = Running get ->
        exists o,
          checkMetrics p get (failuresCount s) = Some o
          /\ forall s', step (checkMetrics p) (on_quit p) s s'
                        <-> s' = mkLoop Idle (counter o) (stdout s ++ written o))
  /\ (forall s', step (checkMetrics p) (on_quit p) s s' ->
                 at_phase s' = Terminated ->
                 at_phase s = Idle
                 /\ s' = mkLoop Terminated (failuresCount s)
                           (stdout s ++ on_quit p))
  /\ (at_phase s = Idle ->
        forall get,
          step (checkMetrics p) (on_quit p) s
            (mkLoop (Running get) (failuresCount s) (stdout s)))
  /\ (at_phase s = Terminated ->
        forall s', ~ step (checkMetrics p) (on_quit p) s s').

(** The snapshot whose fields are the numbers of seven unsigned numerals. *)
Definition numbers_of (ts : list string) : Metrics :=
  mkMetrics
    (numeral_value (token fLoadAverage ts))
    (numeral_value (token fRamTotalBytes ts))
    (numeral_value (token fRamUsageBytes ts))
    (numeral_value (token fDiskTotalBytes ts))
    (numeral_value (token fDiskUsageBytes ts))
    (numeral_value (token fNetworkBandwidthBytesPerSecond ts))
    (numeral_value (token fNetworkLoadBytesPerSecond ts)).

(** The sentence on the round trip as the specification words it: a payload
    of seven non-negative decimal integers joined by the separator is parsed
    into the snapshot of these seven integers. *)
Definition round_trip_as_stated (p : program) (ts : list string) : Prop :=
  List.length ts = 7%nat ->
  forallb numeral ts = true ->
  parse p (String.concat (separator p) ts) = Some (numbers_of ts, None).

(** Seven numerals, the first of which is [2^63]. *)
Definition too_large : list string :=
  ["9223372036854775808"; "0"; "0"; "0"; "0"; "0"; "0"].

(** A [float64] above zero. *)
Definition above_zero (x : F.float64) : bool :=
  match x with
  | S754_finite false _ _ | S754_infinity false => true
  | _ => false
  end.

(** The sign bit of a [float64] that is a number. *)
Definition sign_bit (x : F.float64) : option bool :=
  match x with
  | S754_zero s | S754_infinity s | S754_finite s _ _ => Some s
  | S754_nan => None
  end.

Definition is_zero (x : F.float64) : bool :=
  match x with S754_zero _ => true | _ => false end.

(** The lines of rule [r] among [lines]. *)
Definition of_rule (r : rule) (lines : list line) : list line :=
  filter (fun l => match alert_rule l, r with
                   | Some Load, Load | Some Memory, Memory
                   | Some Disk, Disk | Some Network, Network => true
                   | _, _ => false
                   end) lines.

(** The value the Disk alert prints: [(total - usage) / (1024*1024)], the
    division being the one of Go on integers, which truncates. *)
Definition disk_payload (m : Metrics) : value :=
  VInt (Z.quot (DiskTotalBytes m - DiskUsageBytes m) (1024 * 1024)).

(** [(total - usage) / (1024*1024)] on [float64]: the number left, in units
    of [2^20], with its fraction. *)
Definition remaining (total usage : Z) : F.float64 :=
  F.div (F.of_int (total - usage)) (F.of_int (1024 * 1024)).

(** The value the Network alert of the first program of [part_000] prints:
    [float64(bandwidth - load) / (1024*1024) * 8]. *)
Definition network_payload_float (m : Metrics) : value :=
  VFloat (F.mul (remaining (NetworkBandwidthBytesPerSecond m)
                   (NetworkLoadBytesPerSecond m)) (F.of_int 8)).

(** The sentence on the payloads as the specification words it: the number
    every Disk alert prints is [(diskTotal - diskUsage) / (1024*1024)] and the
    number every Network alert prints is
    [(networkBandwidth - networkLoad) / (1024*1024) * 8], the division being
    the one of the percentages of the same table, with its fraction. *)
Definition payloads_as_stated (p : program) (m : Metrics) : Prop :=
  (forall v, In (Alert Disk v) (evaluate p m) ->
             SFeqb (value_float v)
               (remaining (DiskTotalBytes m) (DiskUsageBytes m)) = true)
  /\ (forall v, In (Alert Network v) (evaluate p m) ->
                SFeqb (value_float v)
                  (F.mul (remaining (NetworkBandwidthBytesPerSecond m)
                            (NetworkLoadBytesPerSecond m)) (F.of_int 8))
                = true).

(** ** Definitions of the further properties *)

(** The usage and the total a rule on a percentage compares. *)
Definition operands (r : rule) (m : Metrics) : option (Z * Z) :=
  match r with
  | Load => None
  | Memory => Some (RamUsageBytes m, RamTotalBytes m)
  | Disk => Some (DiskUsageBytes m, DiskTotalBytes m)
  | Network =>
      Some (NetworkLoadBytesPerSecond m, NetworkBandwidthBytesPerSecond m)
  end.

(** Number of occurrences of the byte [c] in [s]. *)
Fixpoint count_byte (c : ascii) (s : string) : nat :=
  match s with
  | EmptyString => O
  | String x s' => if Ascii.eqb x c then S (count_byte c s') else count_byte c s'
  end.

(** The six white space characters of ASCII: tab, line feed, vertical tab,
    form feed, carriage return and space. *)
Definition ascii_space (c : ascii) : bool :=
  (strconv.byte_val c =? 9) || (strconv.byte_val c =? 10)
  || (strconv.byte_val c =? 11) || (strconv.byte_val c =? 12)
  || (strconv.byte_val c =? 13) || (strconv.byte_val c =? 32).

(** [l] with [h] applied to its last element. *)
Fixpoint map_last (h : string -> string) (l : list string) : list string :=
  match l with
  | [] => []
  | [x] => [h x]
  | x :: r => x :: map_last h r
  end.

(** The decimal rendering of an [int], with its sign (as [strconv.Itoa]). *)
Definition Itoa (n : Z) : string :=
  if n <? 0 then String "-" (render_int (- n)) else render_int n.

(** The payload of the seven fields of a snapshot, negative ones included,
    joined by the separator [sep]. *)
Definition render_signed (sep : string) (m : Metrics) : string :=
  String.concat sep (map (fun f => Itoa (field_get f m)) fields).

(** A line the probe writes about a failure. *)
Definition is_diagnostic (l : line) : bool := negb (is_alert l).

Definition is_tick (e : event) : bool := negb (is_quit e).

(** Decides the tests of [strings.space_width] on a byte [c] below 128,
    given [H : strconv.byte_val c < 128]. *)
Ltac low_byte H :=
  repeat match goal with
         | |- context [strings.b ?c =? ?k] =>
             lazymatch type of H with
             | strconv.byte_val c < 128 =>
                 destruct (Z.eqb_spec (strings.b c) k);
                 [unfold strings.b in *; lia|]
             end
         | |- context [?k <=? strings.b ?c] =>
             lazymatch type of H with
             | strconv.byte_val c < 128 =>
                 destruct (Z.leb_spec k (strings.b c));
                 [unfold strings.b in *; lia|]
             end
         end.

(** * Properties *)

(** ** Machine integers *)

Lemma wrap_small (z : Z) : Int.in_range z -> Int.wrap z = z.
Proof.
  unfold Int.wrap; int_consts; intros H.
  rewrite Z.mod_small; lia.
Qed.

Lemma wrap_in_range (z : Z) : Int.in_range (Int.wrap z).
Proof.
  unfold Int.wrap; int_consts.
  pose proof (Z.mod_pos_bound (z + 9223372036854775808) 18446744073709551616).
  lia.
Qed.

Lemma wrapu_small (z : Z) : 0 <= z <= Int.maxUint64 -> Int.wrapu z = z.
Proof.
  unfold Int.wrapu; int_consts; intros H.
  rewrite Z.mod_small; lia.
Qed.

(** ** Bytes and digits *)

Lemma byte_val_bounds (c : ascii) : 0 <= strconv.byte_val c < 256.
Proof.
  unfold strconv.byte_val.
  pose proof (N_ascii_bounded c). lia.
Qed.

Lemma sub0_digit (c : ascii) :
  is_digit c = true ->
  strconv.sub0 c = strconv.byte_val c - 48 /\ 0 <= strconv.sub0 c <= 9.
Proof.
  unfold is_digit, strconv.sub0; intros H.
  apply andb_true_iff in H as [H1 H2].
  apply Z.leb_le in H1, H2.
  rewrite Z.mod_small by lia. lia.
Qed.

Lemma sub0_not_digit (c : ascii) :
  is_digit c = false -> 9 < strconv.sub0 c.
Proof.
  unfold is_digit, strconv.sub0; intros H.
  pose proof (byte_val_bounds c) as Hb.
  apply andb_false_iff in H as [H | H]; apply Z.leb_gt in H.
  - replace (strconv.byte_val c - 48) with ((strconv.byte_val c + 208) + (-1) * 256) by lia.
    rewrite Z.mod_add by lia. rewrite Z.mod_small; lia.
  - rewrite Z.mod_small; lia.
Qed.

Lemma digits_value_bounds (s : string) :
  all_digits s = true ->
  forall acc, 0 <= acc ->
    acc * 10 ^ Z.of_nat (String.length s) <= digits_value s acc
    /\ digits_value s acc < (acc + 1) * 10 ^ Z.of_nat (String.length s).
Proof.
  induction s as [|c s IH]; intros Hd acc Hacc.
  - simpl. lia.
  - simpl in Hd. apply andb_true_iff in Hd as [Hc Hs].
    destruct (sub0_digit c Hc) as [E B]. rewrite E in B.
    cbn [digits_value String.length].
    rewrite Nat2Z.inj_succ, Z.pow_succ_r by lia.
    specialize (IH Hs (10 * acc + (strconv.byte_val c - 48)) ltac:(lia)).
    set (p := 10 ^ Z.of_nat (String.length s)) in *.
    assert (0 < p) by (apply Z.pow_pos_nonneg; lia).
    nia.
Qed.

Lemma digits_value_ge (s : string) (acc : Z) :
  all_digits s = true -> 0 <= acc -> acc <= digits_value s acc.
Proof.
  intros Hd Hacc.
  destruct (digits_value_bounds s Hd acc Hacc) as [L _].
  assert (0 < 10 ^ Z.of_nat (String.length s)) by (apply Z.pow_pos_nonneg; lia).
  nia.
Qed.

Lemma numeral_value_bounds (s : string) :
  all_digits s = true ->
  0 <= numeral_value s < 10 ^ Z.of_nat (String.length s).
Proof.
  intros Hd. destruct (digits_value_bounds s Hd 0 ltac:(lia)).
  unfold numeral_value. lia.
Qed.

(** ** [strconv.Atoi] converts exactly the signed numerals that fit *)

Lemma fast_loop_digits (s : string) :
  all_digits s = true ->
  forall n, 0 <= n -> digits_value s n <= Int.MaxInt ->
    strconv.fast_loop s n = Some (digits_value s n).
Proof.
  induction s as [|c s IH]; intros Hd n Hn Hv; [reflexivity|].
  simpl in Hd. apply andb_true_iff in Hd as [Hc Hs].
  destruct (sub0_digit c Hc) as [E B].
  cbn [strconv.fast_loop digits_value] in *.
  destruct (Z.ltb_spec 9 (strconv.sub0 c)); [lia|].
  rewrite <- E in *.
  pose proof (digits_value_ge s (10 * n + strconv.sub0 c) Hs ltac:(lia)) as G.
  unfold Int.add, Int.mul.
  rewrite (wrap_small (n * 10)) by (int_consts; lia).
  rewrite wrap_small by (int_consts; lia).
  replace (n * 10 + strconv.sub0 c) with (10 * n + strconv.sub0 c) by lia.
  apply IH; auto; lia.
Qed.

Lemma fast_loop_not_digits (s : string) :
  all_digits s = false -> forall n, strconv.fast_loop s n = None.
Proof.
  induction s as [|c s IH]; intros Hd n; [discriminate|].
  simpl in Hd. cbn [strconv.fast_loop].
  destruct (is_digit c) eqn:Hc.
  - destruct (Z.ltb_spec 9 (strconv.sub0 c)); [reflexivity|].
    apply IH. exact Hd.
  - apply sub0_not_digit in Hc.
    destruct (Z.ltb_spec 9 (strconv.sub0 c)); [reflexivity|lia].
Qed.

Lemma ParseUint_loop_step_not_digit (c : ascii) (s : string) (n : Z) :
  is_digit c = false ->
  strconv.ParseUint_loop (String c s) n = (0, Some ErrSyntax).
Proof.
  unfold is_digit; intros Hc. cbn [strconv.ParseUint_loop]. rewrite Hc.
  destruct ((97 <=? strconv.lower (strconv.byte_val c))
            && (strconv.lower (strconv.byte_val c) <=? 122)) eqn:Hl;
    [|reflexivity].
  apply andb_true_iff in Hl as [Hl _]. apply Z.leb_le in Hl.
  destruct (Z.leb_spec 10 (strconv.lower (strconv.byte_val c) - 97 + 10));
    [reflexivity|lia].
Qed.

Lemma ParseUint_loop_digits (s : string) :
  all_digits s = true ->
  forall n, 0 <= n <= Int.maxUint64 ->
    strconv.ParseUint_loop s n =
      if digits_value s n <=? Int.maxUint64
      then (digits_value s n, None)
      else (Int.maxUint64, Some ErrRange).
Proof.
  induction s as [|c s IH]; intros Hd n Hn.
  - simpl. destruct (Z.leb_spec n Int.maxUint64); [reflexivity|lia].
  - simpl in Hd. apply andb_true_iff in Hd as [Hc Hs].
    destruct (sub0_digit c Hc) as [E B]. rewrite E in B.
    cbn [strconv.ParseUint_loop digits_value].
    fold (is_digit c). rewrite Hc.
    set (d := strconv.byte_val c - 48) in *.
    destruct (Z.leb_spec 10 d); [lia|].
    pose proof (digits_value_ge s (10 * n + d) Hs ltac:(lia)) as G.
    destruct (Z.leb_spec strconv.cutoff10 n) as [Hcut|Hcut].
    + destruct (Z.leb_spec (digits_value s (10 * n + d)) Int.maxUint64);
        [int_consts; lia | reflexivity].
    + rewrite (wrapu_small (n * 10)) by (int_consts; lia).
      destruct (Z.le_gt_cases (n * 10 + d) Int.maxUint64) as [Hfit|Hover].
      * rewrite wrapu_small by lia.
        destruct (Z.ltb_spec (n * 10 + d) (n * 10)); [lia|].
        destruct (Z.ltb_spec Int.maxUint64 (n * 10 + d)); [lia|].
        cbn [orb]. replace (n * 10 + d) with (10 * n + d) by lia.
        apply IH; auto; lia.
      * assert (Ew : Int.wrapu (n * 10 + d) = n * 10 + d - 18446744073709551616).
        { unfold Int.wrapu. change (2 ^ 64) with 18446744073709551616.
          replace (n * 10 + d)
            with ((n * 10 + d - 18446744073709551616) + 1 * 18446744073709551616)
            at 1 by lia.
          rewrite Z.mod_add by lia. apply Z.mod_small. int_consts; lia. }
        rewrite Ew.
        destruct (Z.ltb_spec (n * 10 + d - 18446744073709551616) (n * 10));
          [|lia].
        cbn [orb].
        destruct (Z.leb_spec (digits_value s (10 * n + d)) Int.maxUint64);
          [lia | reflexivity].
Qed.

Lemma ParseUint_loop_not_digits (s : string) :
  all_digits s = false ->
  forall n, strconv.ParseUint_loop s n = (0, Some ErrSyntax)
            \/ strconv.ParseUint_loop s n = (Int.maxUint64, Some ErrRange).
Proof.
  induction s as [|c s IH]; intros Hd n; [discriminate|].
  simpl in Hd. destruct (is_digit c) eqn:Hc.
  - cbn [strconv.ParseUint_loop]. fold (is_digit c). rewrite Hc.
    destruct (10 <=? strconv.byte_val c - 48); [now left|].
    destruct (strconv.cutoff10 <=? n); [now right|].
    match goal with |- context [if ?b then _ else _] => destruct b end;
      [now right | apply IH; exact Hd].
  - left. apply ParseUint_loop_step_not_digit. exact Hc.
Qed.

(** What [ParseUint(s, 10, 64)] returns: the value of a numeral that fits
    [uint64], a range error with the largest value for a numeral that does
    not, and an error for a string that is not a numeral. *)
Lemma ParseUint10_numeral (s : string) :
  numeral s = true ->
  strconv.ParseUint10 s =
    if numeral_value s <=? Int.maxUint64
    then (numeral_value s, None)
    else (Int.maxUint64, Some ErrRange).
Proof.
  destruct s as [|c s]; [discriminate|]. intros Hd.
  unfold strconv.ParseUint10, numeral_value.
  apply ParseUint_loop_digits; [exact Hd | int_consts; lia].
Qed.

Lemma ParseUint10_not_numeral (s : string) :
  numeral s = false ->
  strconv.ParseUint10 s = (0, Some ErrSyntax)
  \/ strconv.ParseUint10 s = (Int.maxUint64, Some ErrRange).
Proof.
  destruct s as [|c s]; intros Hd; [now left|].
  unfold strconv.ParseUint10. apply ParseUint_loop_not_digits. exact Hd.
Qed.

Lemma fits_spec (v : Z) : fits v = true <-> Int.in_range v.
Proof.
  unfold fits, Int.in_range. rewrite andb_true_iff, !Z.leb_le. tauto.
Qed.

Lemma ParseInt10_unsigned_spec (neg : bool) (s1 : string) :
  let '(un, err) := strconv.ParseUint10 s1 in
  let r :=
    match err with
    | Some ErrSyntax => (0, Some ErrSyntax)
    | _ =>
        if negb neg && (2 ^ 63 <=? un) then (2 ^ 63 - 1, Some ErrRange)
        else if neg && (2 ^ 63 <? un) then (- 2 ^ 63, Some ErrRange)
        else ((if neg then Int.neg (Int.wrap un) else Int.wrap un), None)
    end in
  if numeral s1 then
    let v := if neg then - numeral_value s1 else numeral_value s1 in
    if fits v then r = (v, None) else exists c, r = (c, Some ErrRange)
  else exists c k, r = (c, Some k).
Proof.
  destruct (numeral s1) eqn:Hn.
  - rewrite (ParseUint10_numeral s1 Hn). cbv zeta.
    assert (Hv : 0 <= numeral_value s1).
    { destruct s1; [discriminate|]. apply numeral_value_bounds. exact Hn. }
    set (v := numeral_value s1) in *.
    destruct (Z.leb_spec v Int.maxUint64) as [Hu|Hu].
    + destruct neg; cbn [negb andb].
      * destruct (Z.ltb_spec (2 ^ 63) v).
        -- destruct (fits (- v)) eqn:Hf; [|eauto].
           apply fits_spec in Hf. int_consts. lia.
        -- assert (Hf : fits (- v) = true)
             by (apply fits_spec; int_consts; lia).
           rewrite Hf. f_equal.
           destruct (Z.eq_dec v (2 ^ 63)) as [->|Hne]; [reflexivity|].
           unfold Int.neg. rewrite (wrap_small v) by (int_consts; lia).
           apply wrap_small. int_consts. lia.
      * destruct (Z.leb_spec (2 ^ 63) v).
        -- destruct (fits v) eqn:Hf; [|eauto].
           apply fits_spec in Hf. int_consts. lia.
        -- assert (Hf : fits v = true) by (apply fits_spec; int_consts; lia).
           rewrite Hf. f_equal. apply wrap_small. int_consts. lia.
    + assert (Hf : fits (if neg then - v else v) = false).
      { destruct (fits _) eqn:Hf; [|reflexivity].
        apply fits_spec in Hf. destruct neg; int_consts; lia. }
      rewrite Hf.
      destruct neg; [exists (- 2 ^ 63) | exists (2 ^ 63 - 1)]; reflexivity.
  - destruct (ParseUint10_not_numeral s1 Hn) as [E|E]; rewrite E; cbv zeta.
    + eauto.
    + exists (if neg then - 2 ^ 63 else 2 ^ 63 - 1), ErrRange.
      destruct neg; reflexivity.
Qed.

Lemma ParseInt10_spec (s : string) :
  match signed_numeral s with
  | Some v =>
      if fits v then strconv.ParseInt10 s = (v, None)
      else exists c, strconv.ParseInt10 s = (c, Some ErrRange)
  | None => exists c k, strconv.ParseInt10 s = (c, Some k)
  end.
Proof.
  destruct s as [|c0 rest]; [cbn; eauto|].
  unfold signed_numeral, strconv.ParseInt10.
  destruct (Z.eqb_spec (strconv.byte_val c0) 45) as [Em|Em].
  - rewrite orb_true_r.
    pose proof (ParseInt10_unsigned_spec true rest) as H.
    destruct (strconv.ParseUint10 rest) as [un err].
    destruct (numeral rest); exact H.
  - destruct (Z.eqb_spec (strconv.byte_val c0) 43) as [Ep|Ep]; cbn [orb].
    + pose proof (ParseInt10_unsigned_spec false rest) as H.
      destruct (strconv.ParseUint10 rest) as [un err].
      destruct (numeral rest); exact H.
    + pose proof (ParseInt10_unsigned_spec false (String c0 rest)) as H.
      destruct (strconv.ParseUint10 (String c0 rest)) as [un err].
      destruct (numeral (String c0 rest)); exact H.
Qed.

Lemma short_numeral_fits (t : string) :
  all_digits t = true -> Z.of_nat (String.length t) < 19 ->
  0 <= numeral_value t <= 10 ^ 18 - 1.
Proof.
  intros Hd Hl. pose proof (numeral_value_bounds t Hd) as [L U].
  assert (10 ^ Z.of_nat (String.length t) <= 10 ^ 18)
    by (apply Z.pow_le_mono_r; lia).
  lia.
Qed.

Lemma Atoi_fast_path (neg : bool) (t : string) :
  t <> EmptyString -> Z.of_nat (String.length t) < 19 ->
  match strconv.fast_loop t 0 with
  | Some n =>
      numeral t = true
      /\ (if neg then Int.neg n else n)
         = (if neg then - numeral_value t else numeral_value t)
      /\ fits (if neg then - numeral_value t else numeral_value t) = true
  | None => numeral t = false
  end.
Proof.
  intros Hne Hl.
  assert (En : numeral t = all_digits t) by (destruct t; [congruence|reflexivity]).
  rewrite En. destruct (all_digits t) eqn:Hd.
  - pose proof (short_numeral_fits t Hd Hl) as B.
    change (10 ^ 18 - 1) with 999999999999999999 in B.
    rewrite (fast_loop_digits t Hd 0) by (fold (numeral_value t); int_consts; lia).
    fold (numeral_value t). split; [reflexivity|]. split.
    + destruct neg; [|reflexivity]. apply wrap_small. int_consts. lia.
    + apply fits_spec. destruct neg; int_consts; lia.
  - rewrite fast_loop_not_digits by exact Hd. reflexivity.
Qed.

Lemma length_String (c : ascii) (s : string) :
  Z.of_nat (String.length (String c s)) = Z.of_nat (String.length s) + 1.
Proof. cbn [String.length]. lia. Qed.

(** [strconv.Atoi] returns the integer of a signed numeral that fits [int]
    and an error on every other string. *)
Lemma Atoi_spec (s : string) : conversion_spec "Atoi" s (strconv.Atoi s).
Proof.
  unfold strconv.Atoi.
  destruct ((0 <? Z.of_nat (String.length s))
            && (Z.of_nat (String.length s) <? 19)) eqn:Hfast.
  - apply andb_true_iff in Hfast as [_ Hl]. apply Z.ltb_lt in Hl.
    destruct s as [|c0 rest]; [unfold conversion_spec; cbn; do 2 eexists; reflexivity|].
    unfold conversion_spec, signed_numeral, strconv.is_sign.
    rewrite length_String in Hl.
    destruct (Z.eqb_spec (strconv.byte_val c0) 45) as [Em|Em]; cbn [orb andb].
    + destruct rest as [|c1 rest']; [cbn; do 2 eexists; reflexivity|].
      rewrite length_String in *.
      destruct (Z.ltb_spec (Z.of_nat (String.length rest') + 1) 1) as [Hl1|Hl1]; [lia|].
      pose proof (Atoi_fast_path true (String c1 rest') ltac:(discriminate)
                    ltac:(rewrite length_String; lia)) as H.
      destruct (strconv.fast_loop (String c1 rest') 0) as [n|].
      * destruct H as (Hn & Ev & Hf). rewrite Hn, Hf, Ev. reflexivity.
      * rewrite H. do 2 eexists; reflexivity.
    + destruct (Z.eqb_spec (strconv.byte_val c0) 43) as [Ep|Ep]; cbn [orb andb].
      * destruct rest as [|c1 rest']; [cbn; do 2 eexists; reflexivity|].
        rewrite length_String in *.
        destruct (Z.ltb_spec (Z.of_nat (String.length rest') + 1) 1) as [Hl1|Hl1]; [lia|].
        pose proof (Atoi_fast_path false (String c1 rest') ltac:(discriminate)
                      ltac:(rewrite length_String; lia)) as H.
        destruct (strconv.fast_loop (String c1 rest') 0) as [n|].
        -- destruct H as (Hn & Ev & Hf). rewrite Hn, Hf, Ev. reflexivity.
        -- rewrite H. do 2 eexists; reflexivity.
      * pose proof (Atoi_fast_path false (String c0 rest) ltac:(discriminate)
                      ltac:(rewrite length_String; lia)) as H.
        destruct (strconv.fast_loop (String c0 rest) 0) as [n|].
        -- destruct H as (Hn & Ev & Hf). rewrite Hn, Hf, Ev. reflexivity.
        -- rewrite H. do 2 eexists; reflexivity.
  - clear Hfast. pose proof (ParseInt10_spec s) as H.
    unfold conversion_spec.
    destruct (strconv.ParseInt10 s) as [i64 err].
    destruct (signed_numeral s) as [v|].
    + destruct (fits v).
      * injection H as -> ->. reflexivity.
      * destruct H as [c H]. injection H as -> ->. cbn. eauto.
    + destruct H as (c & k & H). injection H as -> ->. cbn. eauto.
Qed.

(** [strconv.Atoi] on a few strings. *)
Example Atoi_42 : strconv.Atoi "42" = (42, None).
Proof. reflexivity. Qed.
Example Atoi_neg : strconv.Atoi "-5" = (-5, None).
Proof. reflexivity. Qed.
Example Atoi_max : strconv.Atoi "9223372036854775807" = (Int.MaxInt, None).
Proof. vm_compute. reflexivity. Qed.
Example Atoi_over : strconv.Atoi "9223372036854775808"
  = (Int.MaxInt, Some (NumError "Atoi" "9223372036854775808" ErrRange)).
Proof. vm_compute. reflexivity. Qed.
Example Atoi_min : strconv.Atoi "-9223372036854775808" = (Int.MinInt, None).
Proof. vm_compute. reflexivity. Qed.
Example Atoi_empty : strconv.Atoi "" = (0, Some (NumError "Atoi" "" ErrSyntax)).
Proof. reflexivity. Qed.
Example Atoi_x : strconv.Atoi "9999999999999999999x"
  = (0, Some (NumError "Atoi" "9999999999999999999x" ErrSyntax)).
Proof. vm_compute. reflexivity. Qed.
Example Atoi_xr : strconv.Atoi "99999999999999999999x"
  = (Int.MaxInt, Some (NumError "Atoi" "99999999999999999999x" ErrRange)).
Proof. vm_compute. reflexivity. Qed.

Lemma Atoi_valid (s : string) :
  valid_int s = true ->
  exists v, signed_numeral s = Some v /\ Int.in_range v
            /\ strconv.Atoi s = (v, None).
Proof.
  unfold valid_int. intros H. pose proof (Atoi_spec s) as A.
  unfold conversion_spec in A.
  destruct (signed_numeral s) as [v|]; [|discriminate].
  fold (fits v) in H. rewrite H in A.
  exists v. repeat split; auto; apply fits_spec in H; apply H.
Qed.

Lemma Atoi_invalid (s : string) :
  valid_int s = false ->
  exists c k, strconv.Atoi s = (c, Some (NumError "Atoi" s k)).
Proof.
  unfold valid_int. intros H. pose proof (Atoi_spec s) as A.
  unfold conversion_spec in A.
  destruct (signed_numeral s) as [v|]; [|exact A].
  fold (fits v) in H. rewrite H in A. destruct A as [c A]. eauto.
Qed.

Lemma Atoi_ok_iff (s : string) :
  snd (strconv.Atoi s) = None <-> valid_int s = true.
Proof.
  split; intros H.
  - destruct (valid_int s) eqn:V; [reflexivity|].
    destruct (Atoi_invalid s V) as (c & k & E). rewrite E in H. discriminate.
  - destruct (Atoi_valid s H) as (v & _ & _ & E). rewrite E. reflexivity.
Qed.

(** ** [parseMetrics] *)

Lemma parseMetrics_unfold (values : list string) (m : Metrics) :
  parseMetrics values m = assign_all fields values m.
Proof. reflexivity. Qed.

Lemma fields_split (f : field) : fields = (before f ++ f :: after f)%list.
Proof. destruct f; reflexivity. Qed.

Lemma before_index (f g : field) :
  In g (before f) -> (field_index g < field_index f)%nat.
Proof.
  destruct f; cbn; intros H; repeat (destruct H as [<-|H]; [cbn; lia|]);
    contradiction.
Qed.

Lemma token_nth_error (f : field) (values : list string) :
  List.length values = 7%nat ->
  nth_error values (field_index f) = Some (token f values).
Proof.
  intros L. unfold token. apply nth_error_nth'.
  rewrite L. destruct f; cbn; lia.
Qed.

(** With seven values no index is out of range: [parseMetrics] does not
    panic. *)
Lemma assign_all_total (fs : list field) (values : list string) :
  List.length values = 7%nat ->
  forall m, exists m' err, assign_all fs values m = Some (m', err).
Proof.
  intros L. induction fs as [|f fs IH]; intros m; cbn [assign_all].
  - eauto.
  - unfold assign. rewrite (token_nth_error f values L).
    destruct (strconv.Atoi (token f values)) as [n [e|]]; eauto.
Qed.

Lemma parseMetrics_total (values : list string) (m : Metrics) :
  List.length values = 7%nat ->
  exists m' err, parseMetrics values m = Some (m', err).
Proof. intros L. rewrite parseMetrics_unfold. apply assign_all_total. exact L. Qed.

(** The fields before the first token [Atoi] rejects are filled, and the
    error names the field of that token and wraps the error of [Atoi]. *)
Lemma assign_all_first_invalid (values : list string) (f : field)
    (fs2 : list field) :
  List.length values = 7%nat ->
  valid_int (token f values) = false ->
  forall fs1 m,
    (forall g, In g fs1 -> valid_int (token g values) = true) ->
    exists m' k,
      snd (strconv.Atoi (token f values))
      = Some (NumError "Atoi" (token f values) k)
      /\ assign_all (fs1 ++ f :: fs2)%list values m
         = Some (m', Some (wrapError (field_format f)
                             (NumError "Atoi" (token f values) k))).
Proof.
  intros L Hbad. induction fs1 as [|g fs1 IH]; intros m Hok.
  - cbn [app assign_all]. unfold assign. rewrite (token_nth_error f values L).
    destruct (Atoi_invalid _ Hbad) as (c & k & E). rewrite E.
    eexists _, k. split; reflexivity.
  - cbn [app assign_all]. unfold assign at 1.
    rewrite (token_nth_error g values L).
    destruct (Atoi_valid _ (Hok g (or_introl eq_refl))) as (v & _ & _ & E).
    rewrite E. apply IH. intros h Hh. apply Hok. now right.
Qed.

Lemma assign_all_valid (values : list string) :
  List.length values = 7%nat ->
  forall fs m,
    (forall g, In g fs -> valid_int (token g values) = true) ->
    assign_all fs values m
    = Some (fold_left (fun m' g => field_set g (int_of (token g values)) m')
              fs m, None).
Proof.
  intros L. induction fs as [|g fs IH]; intros m Hok; [reflexivity|].
  cbn [assign_all fold_left]. unfold assign.
  rewrite (token_nth_error g values L).
  destruct (Atoi_valid _ (Hok g (or_introl eq_refl))) as (v & Ev & _ & E).
  rewrite E. unfold int_of at 2. rewrite Ev.
  apply IH. intros h Hh. apply Hok. now right.
Qed.

(** Seven valid tokens: every field holds the integer of its token. *)
Lemma parseMetrics_valid (values : list string) (m : Metrics) :
  List.length values = 7%nat ->
  (forall g, valid_int (token g values) = true) ->
  parseMetrics values m = Some (snapshot_of values, None).
Proof.
  intros L Hok. rewrite parseMetrics_unfold.
  rewrite (assign_all_valid values L fields m) by (intros g _; apply Hok).
  reflexivity.
Qed.

Lemma parseMetrics_first_invalid (values : list string) (m : Metrics)
    (f : field) :
  List.length values = 7%nat ->
  (forall g, (field_index g < field_index f)%nat ->
             valid_int (token g values) = true) ->
  valid_int (token f values) = false ->
  exists m' k,
    snd (strconv.Atoi (token f values))
    = Some (NumError "Atoi" (token f values) k)
    /\ parseMetrics values m
       = Some (m', Some (wrapError (field_format f)
                           (NumError "Atoi" (token f values) k))).
Proof.
  intros L Hok Hbad. rewrite parseMetrics_unfold, (fields_split f).
  apply assign_all_first_invalid; auto.
  intros g Hg. apply Hok, before_index, Hg.
Qed.

(** ** The tokenizers *)

Lemma append_nil_r (s : string) : s ++ EmptyString = s.
Proof. induction s as [|c s IH]; cbn; [reflexivity | now rewrite IH]. Qed.

Lemma append_assoc (a b c : string) : (a ++ b) ++ c = a ++ (b ++ c).
Proof. induction a as [|x a IH]; cbn; [reflexivity | now rewrite IH]. Qed.

Lemma Split_not_nil (s : string) (sep : ascii) : strings.Split s sep <> [].
Proof.
  destruct s as [|c s]; cbn; [discriminate|].
  destruct (Ascii.eqb c sep); [discriminate|].
  destruct (strings.Split s sep); discriminate.
Qed.

Lemma Split_no_sep (t : string) (sep : ascii) :
  all_bytes (fun c => negb (Ascii.eqb c sep)) t = true ->
  strings.Split t sep = [t].
Proof.
  induction t as [|c t IH]; cbn; intros H; [reflexivity|].
  apply andb_true_iff in H as [Hc Ht]. apply negb_true_iff in Hc.
  rewrite Hc, (IH Ht). reflexivity.
Qed.

Lemma Split_app (t rest : string) (sep : ascii) :
  all_bytes (fun c => negb (Ascii.eqb c sep)) t = true ->
  strings.Split (t ++ String sep rest) sep = t :: strings.Split rest sep.
Proof.
  induction t as [|c t IH]; cbn; intros H.
  - rewrite Ascii.eqb_refl. reflexivity.
  - apply andb_true_iff in H as [Hc Ht]. apply negb_true_iff in Hc.
    rewrite Hc, (IH Ht). reflexivity.
Qed.

Lemma Split_concat (sep : ascii) (ts : list string) (t : string) :
  (forall x, In x (t :: ts) ->
             all_bytes (fun c => negb (Ascii.eqb c sep)) x = true) ->
  strings.Split (String.concat (String sep EmptyString) (t :: ts)) sep = t :: ts.
Proof.
  revert t. induction ts as [|t2 ts IH]; intros t H.
  - cbn. apply Split_no_sep. apply H. now left.
  - change (String.concat (String sep EmptyString) (t :: t2 :: ts))
      with (t ++ String sep (String.concat (String sep EmptyString) (t2 :: ts))).
    rewrite Split_app by (apply H; now left).
    rewrite IH; [reflexivity|]. intros x Hx. apply H. now right.
Qed.

Lemma space_width_word (c : ascii) (r : string) :
  word_byte c = true -> strings.space_width (String c r) = O.
Proof.
  unfold word_byte, strings.space_width, strings.b. intros H.
  apply andb_true_iff in H as [H1 H2]. apply Z.leb_le in H1, H2.
  repeat match goal with
         | |- context [?x =? ?y] =>
             destruct (Z.eqb_spec x y); [lia|]
         end.
  cbn [orb andb]. destruct r as [|c2 [|c3 r3]]; reflexivity.
Qed.

Lemma Fields_from_word (t rest tok : string) :
  all_bytes word_byte t = true ->
  strings.Fields_from (t ++ rest) O tok = strings.Fields_from rest O (tok ++ t).
Proof.
  revert tok. induction t as [|c t IH]; intros tok H.
  - cbn [append]. now rewrite append_nil_r.
  - cbn [all_bytes] in H. apply andb_true_iff in H as [Hc Ht].
    cbn [append strings.Fields_from].
    rewrite (space_width_word c (t ++ rest) Hc), (IH _ Ht).
    rewrite append_assoc. reflexivity.
Qed.

Lemma Fields_concat (ts : list string) (t : string) :
  (forall x, In x (t :: ts) -> x <> EmptyString /\ all_bytes word_byte x = true) ->
  strings.Fields (String.concat " " (t :: ts)) = t :: ts.
Proof.
  unfold strings.Fields. revert t.
  induction ts as [|t2 ts IH]; intros t H;
    destruct (H t (or_introl eq_refl)) as [Hne Hw].
  - cbn [String.concat].
    rewrite <- (append_nil_r t) at 1.
    rewrite Fields_from_word by exact Hw. cbn.
    destruct t; [congruence|reflexivity].
  - change (String.concat " " (t :: t2 :: ts))
      with (t ++ String " " (String.concat " " (t2 :: ts))).
    rewrite Fields_from_word by exact Hw.
    cbn [append strings.Fields_from].
    change (strings.space_width (String " " (String.concat " " (t2 :: ts))))
      with 1%nat.
    cbv iota. rewrite IH by (intros x Hx; apply H; now right).
    destruct t; [congruence|reflexivity].
Qed.

(** [strings.Fields] never yields an empty token. *)
Lemma Fields_from_nonempty (s : string) :
  forall skip tok x, In x (strings.Fields_from s skip tok) -> x <> EmptyString.
Proof.
  assert (Hflush : forall tok x, In x (strings.flush tok) -> x <> EmptyString).
  { intros [|c tok] x H; [contradiction|].
    destruct H as [<-|[]]. discriminate. }
  induction s as [|c s IH]; intros skip tok x H; cbn [strings.Fields_from] in H.
  - eapply Hflush; eauto.
  - destruct skip as [|k]; [|eapply IH; eauto].
    destruct (strings.space_width (String c s)) as [|k].
    + eapply IH; eauto.
    + apply in_app_or in H as [H|H]; [eapply Hflush | eapply IH]; eauto.
Qed.

Lemma Fields_nonempty (s x : string) :
  In x (strings.Fields s) -> x <> EmptyString.
Proof. apply Fields_from_nonempty. Qed.

(** ** From the values to the result of [getMetrics] *)

Lemma MainGo_decode (body : string) (m : Metrics) :
  MainGo.getMetrics_decode body m = decode_values (strings.Fields body) m.
Proof. reflexivity. Qed.

Lemma PartA_decode (body : string) (m : Metrics) :
  PartA.getMetrics_decode body m = decode_values (strings.Split body ",") m.
Proof. reflexivity. Qed.

Lemma PartB_decode (body : string) (m : Metrics) :
  PartB.getMetrics_decode body m = decode_values (strings.Split body ",") m.
Proof. reflexivity. Qed.

Lemma length_7 (values : list string) :
  (Z.of_nat (List.length values) =? 7) = true <-> List.length values = 7%nat.
Proof. rewrite Z.eqb_eq. lia. Qed.

Lemma decode_values_count (values : list string) (m : Metrics) :
  List.length values <> 7%nat ->
  decode_values values m
  = Some (m, Some (errorf_d "unexpected number of metrics: expected 7, got %d"
                     (Z.of_nat (List.length values)))).
Proof.
  intros H. unfold decode_values.
  destruct (Z.of_nat (List.length values) =? 7) eqn:E; [|reflexivity].
  apply length_7 in E. contradiction.
Qed.

Lemma decode_values_7 (values : list string) (m : Metrics) :
  List.length values = 7%nat ->
  decode_values values m =
    match parseMetrics values m with
    | None => None
    | Some (m', Some err) =>
        Some (m', Some (wrapError "error parsing metrics: %w" err))
    | Some (m', None) => Some (m', None)
    end.
Proof.
  intros H. unfold decode_values. apply length_7 in H. rewrite H. reflexivity.
Qed.

Lemma decode_values_total (values : list string) (m : Metrics) :
  exists m' err, decode_values values m = Some (m', err).
Proof.
  destruct (Nat.eq_dec (List.length values) 7) as [L|L].
  - rewrite (decode_values_7 values m L).
    destruct (parseMetrics_total values m L) as (m' & [e|] & E); rewrite E; eauto.
  - rewrite (decode_values_count values m L). eauto.
Qed.

Lemma decode_values_valid (values : list string) (m : Metrics) :
  List.length values = 7%nat ->
  (forall g, valid_int (token g values) = true) ->
  decode_values values m = Some (snapshot_of values, None).
Proof.
  intros L H. rewrite (decode_values_7 values m L).
  rewrite (parseMetrics_valid values m L H). reflexivity.
Qed.

Lemma decode_values_first_invalid (values : list string) (m : Metrics)
    (f : field) :
  List.length values = 7%nat ->
  (forall g, (field_index g < field_index f)%nat ->
             valid_int (token g values) = true) ->
  valid_int (token f values) = false ->
  exists m' k,
    snd (strconv.Atoi (token f values))
    = Some (NumError "Atoi" (token f values) k)
    /\ decode_values values m
       = Some (m', Some (conversion_error f
                           (NumError "Atoi" (token f values) k))).
Proof.
  intros L Hok Hbad. rewrite (decode_values_7 values m L).
  destruct (parseMetrics_first_invalid values m f L Hok Hbad)
    as (m' & k & A & E).
  rewrite E. exists m', k. split; [exact A | reflexivity].
Qed.

(** Among seven tokens of which one is not valid, one is the first. *)
Lemma first_invalid (values : list string) :
  (forall g, valid_int (token g values) = true)
  \/ exists f, valid_int (token f values) = false
               /\ forall g, (field_index g < field_index f)%nat ->
                            valid_int (token g values) = true.
Proof.
  destruct (valid_int (token fLoadAverage values)) eqn:V0;
    [|right; exists fLoadAverage; split; [exact V0|];
      intros []; cbn; intros; (lia || assumption)].
  destruct (valid_int (token fRamTotalBytes values)) eqn:V1;
    [|right; exists fRamTotalBytes; split; [exact V1|];
      intros []; cbn; intros; (lia || assumption)].
  destruct (valid_int (token fRamUsageBytes values)) eqn:V2;
    [|right; exists fRamUsageBytes; split; [exact V2|];
      intros []; cbn; intros; (lia || assumption)].
  destruct (valid_int (token fDiskTotalBytes values)) eqn:V3;
    [|right; exists fDiskTotalBytes; split; [exact V3|];
      intros []; cbn; intros; (lia || assumption)].
  destruct (valid_int (token fDiskUsageBytes values)) eqn:V4;
    [|right; exists fDiskUsageBytes; split; [exact V4|];
      intros []; cbn; intros; (lia || assumption)].
  destruct (valid_int (token fNetworkBandwidthBytesPerSecond values)) eqn:V5;
    [|right; exists fNetworkBandwidthBytesPerSecond; split; [exact V5|];
      intros []; cbn; intros; (lia || assumption)].
  destruct (valid_int (token fNetworkLoadBytesPerSecond values)) eqn:V6;
    [|right; exists fNetworkLoadBytesPerSecond; split; [exact V6|];
      intros []; cbn; intros; (lia || assumption)].
  left. intros []; assumption.
Qed.

(** The three results [getMetrics] can have on the values of a body. *)
Lemma decode_values_cases (values : list string) (m : Metrics) :
  (List.length values <> 7%nat
   /\ decode_values values m
      = Some (m, Some (errorf_d "unexpected number of metrics: expected 7, got %d"
                         (Z.of_nat (List.length values)))))
  \/ (List.length values = 7%nat
      /\ (forall g, valid_int (token g values) = true)
      /\ decode_values values m = Some (snapshot_of values, None))
  \/ (List.length values = 7%nat
      /\ exists f m' k,
           valid_int (token f values) = false
           /\ (forall g, (field_index g < field_index f)%nat ->
                         valid_int (token g values) = true)
           /\ decode_values values m
              = Some (m', Some (conversion_error f
                                  (NumError "Atoi" (token f values) k)))).
Proof.
  destruct (Nat.eq_dec (List.length values) 7) as [L|L].
  - right. destruct (first_invalid values) as [H|(f & Hbad & Hok)].
    + left. auto using decode_values_valid.
    + right. split; [exact L|].
      destruct (decode_values_first_invalid values m f L Hok Hbad)
        as (m' & k & _ & E).
      exists f, m', k. auto.
  - left. auto using decode_values_count.
Qed.

Lemma parse_decode (p : program) (body : string) :
  parse p body = decode_values (tokenize p body) Metrics_zero.
Proof. destruct p; reflexivity. Qed.

(** ** The parser: conversion errors *)



(** ** The parser: the field count *)

Lemma Fields_all_nonempty (body : string) :
  forallb nonempty (strings.Fields body) = true.
Proof.
  apply forallb_forall. intros x Hx.
  apply Fields_nonempty in Hx. destruct x; [congruence|reflexivity].
Qed.

Lemma empty_token_field (ts : list string) :
  List.length ts = 7%nat -> forallb nonempty ts = false ->
  exists f, token f ts = EmptyString.
Proof.
  intros L H.
  destruct ts as [|t0 [|t1 [|t2 [|t3 [|t4 [|t5 [|t6 [|t7 ts]]]]]]]];
    try discriminate L.
  destruct t0; [exists fLoadAverage; reflexivity|].
  destruct t1; [exists fRamTotalBytes; reflexivity|].
  destruct t2; [exists fRamUsageBytes; reflexivity|].
  destruct t3; [exists fDiskTotalBytes; reflexivity|].
  destruct t4; [exists fDiskUsageBytes; reflexivity|].
  destruct t5; [exists fNetworkBandwidthBytesPerSecond; reflexivity|].
  destruct t6; [exists fNetworkLoadBytesPerSecond; reflexivity|].
  discriminate H.
Qed.

(** C4, amended. The parser fails with the field-count error exactly when
    the split does not yield seven tokens, and then returns the zero metrics;
    whether a token is empty plays no part in it. [strings.Fields], the split
    of [main.go], yields no empty token; seven tokens one of which is empty,
    as the split at commas can yield, fail with a conversion error. *)
Theorem field_count_error_iff (p : program) (body : string) :
  fails_with_field_count (parse p body)
  = negb (List.length (tokenize p body) =? 7)%nat
  /\ (if fails_with_field_count (parse p body)
      then exists e, parse p body = Some (Metrics_zero, Some e)
      else True)
  /\ forallb nonempty (tokenize main_go body) = true
  /\ (List.length (tokenize p body) = 7%nat ->
      forallb nonempty (tokenize p body) = false ->
      exists m f e, parse p body = Some (m, Some (conversion_error f e))).
Proof.
  split; [|split; [|split; [apply Fields_all_nonempty|]]].
  - rewrite parse_decode.
    destruct (decode_values_cases (tokenize p body) Metrics_zero)
      as [[L E]|[(L & _ & E)|(L & f & m & k & _ & _ & E)]]; rewrite E; cbn.
    + symmetry. apply negb_true_iff, Nat.eqb_neq, L.
    + rewrite L. reflexivity.
    + rewrite L. reflexivity.
  - rewrite parse_decode.
    destruct (decode_values_cases (tokenize p body) Metrics_zero)
      as [[L E]|[(L & _ & E)|(L & f & m & k & _ & _ & E)]]; rewrite E; cbn;
      eauto.
  - intros L7 Hempty. rewrite parse_decode.
    destruct (decode_values_cases (tokenize p body) Metrics_zero)
      as [[L E]|[(L & V & E)|(L & f & m & k & _ & _ & E)]].
    + contradiction.
    + destruct (empty_token_field _ L7 Hempty) as [f Hf].
      specialize (V f). rewrite Hf in V. discriminate V.
    + rewrite E. eauto.
Qed.

Lemma field_count_error_iff_witness :
  fails_with_field_count (parse part_a "1,,3,4,5,6,7") = false
  /\ exists m f e,
       parse part_a "1,,3,4,5,6,7" = Some (m, Some (conversion_error f e)).
Proof.
  destruct (field_count_error_iff part_a "1,,3,4,5,6,7") as (A & _ & _ & D).
  split; [rewrite A; reflexivity | apply D; reflexivity].
Defined.

(** C4, as stated, fails on the programs that split at commas: the seven
    tokens of this body include an empty one, and the error is the
    conversion error of the second field, not the field-count error. *)
Lemma field_count_counterexample :
  ~ field_count_as_stated part_a "1,,3,4,5,6,7".
Proof.
  unfold field_count_as_stated. intros [_ H].
  assert (E : fails_with_field_count (parse part_a "1,,3,4,5,6,7") = false)
    by reflexivity.
  rewrite E in H. discriminate H.
  intros [_ N]. discriminate N.
Qed.

(** ** The parser: all the fields or an error *)

Lemma getMetrics_cases (p : program) (get : GetResult) :
  (exists e, getMetrics p get = Some (Metrics_zero, Some e))
  \/ (exists body, getMetrics p get = parse p body).
Proof.
  destruct p, get as [err|resp]; cbn; eauto.
  - destruct (ContentType resp =? "text/plain")%string; cbn; eauto.
    destruct (end_err (body resp)) as [[]|]; eauto.
  - destruct (Read1024 (body resp)) as [bytes [[]|]]; eauto.
  - destruct (end_err (body resp)) as [[]|]; eauto.
Qed.

Lemma parse_success (p : program) (body : string) (m : Metrics) :
  parse p body = Some (m, None) ->
  List.length (tokenize p body) = 7%nat
  /\ (forall g, valid_int (token g (tokenize p body)) = true)
  /\ m = snapshot_of (tokenize p body).
Proof.
  rewrite parse_decode.
  destruct (decode_values_cases (tokenize p body) Metrics_zero)
    as [[L E]|[(L & V & E)|(L & f & m' & k & _ & _ & E)]]; rewrite E;
    intros H; try discriminate.
  injection H as <-. auto.
Qed.

Lemma parse_total (p : program) (body : string) :
  exists m err, parse p body = Some (m, err).
Proof. rewrite parse_decode. apply decode_values_total. Qed.

Lemma getMetrics_total (p : program) (get : GetResult) :
  exists m err, getMetrics p get = Some (m, err).
Proof.
  destruct (getMetrics_cases p get) as [[e E]|[body E]]; rewrite E; eauto.
  apply parse_total.
Qed.

Lemma checkMetrics_failure (p : program) (get : GetResult) (fc : Z)
    (m : Metrics) (e : error) :
  getMetrics p get = Some (m, Some e) ->
  exists lines,
    checkMetrics p get fc = Some (mkOutcome lines (Int.add fc 1) (Some e))
    /\ no_alert lines = true
    /\ existsb is_unavailable lines = (3 <=? Int.add fc 1).
Proof.
  destruct p; cbn [getMetrics checkMetrics]; intros E;
    unfold MainGo.checkMetrics, PartA.checkMetrics, PartB.checkMetrics;
    rewrite E; eexists; (split; [reflexivity|]);
    destruct (3 <=? Int.add fc 1); split; reflexivity.
Qed.

Lemma checkMetrics_success (p : program) (get : GetResult) (fc : Z)
    (m : Metrics) :
  getMetrics p get = Some (m, None) ->
  checkMetrics p get fc = Some (mkOutcome (evaluate p m) 0 None).
Proof.
  destruct p; cbn [getMetrics checkMetrics evaluate]; intros E;
    unfold MainGo.checkMetrics, PartA.checkMetrics, PartB.checkMetrics;
    rewrite E; reflexivity.
Qed.

Lemma getMetrics_success (p : program) (get : GetResult) (m : Metrics) :
  getMetrics p get = Some (m, None) ->
  exists resp, get = GetOk resp /\ parse p (received p resp) = Some (m, None).
Proof.
  destruct p, get as [err|resp]; cbn [getMetrics];
    unfold MainGo.getMetrics, PartA.getMetrics, PartB.getMetrics;
    try discriminate; intros H; exists resp; (split; [reflexivity|]);
    unfold received, parse.
  - destruct (negb (ContentType resp =? "text/plain")%string); [discriminate|].
    destruct (ReadAll (body resp)) as [bytes [e|]]; [discriminate | exact H].
  - destruct (Read1024 (body resp)) as [bytes [[]|]]; try discriminate;
      exact H.
  - destruct (ReadAll (body resp)) as [bytes [e|]]; [discriminate | exact H].
Qed.

(** C6, amended. [getMetrics] returns either no error and the snapshot whose
    seven fields are the integers of the seven tokens of the body it received,
    or an error; [checkMetrics] then returns that error and writes no alert:
    the metrics value returned beside an error is never evaluated. *)
Theorem snapshot_or_error (p : program) (get : GetResult) :
  (exists m resp,
      get = GetOk resp
      /\ getMetrics p get = Some (m, None)
      /\ List.length (tokenize p (received p resp)) = 7%nat
      /\ (forall g, valid_int (token g (tokenize p (received p resp))) = true)
      /\ m = snapshot_of (tokenize p (received p resp)))
  \/ (exists m e,
        getMetrics p get = Some (m, Some e)
        /\ forall fc, exists lines,
             checkMetrics p get fc
             = Some (mkOutcome lines (Int.add fc 1) (Some e))
             /\ no_alert lines = true).
Proof.
  destruct (getMetrics_total p get) as (m & [e|] & E).
  - right. exists m, e. split; [exact E|]. intros fc.
    destruct (checkMetrics_failure p get fc m e E) as (lines & C & N & _).
    eauto.
  - left. destruct (getMetrics_success p get m E) as (resp & -> & P).
    destruct (parse_success p (received p resp) m P) as (L & V & S).
    exists m, resp. auto.
Qed.

(** C6, as stated, fails: the parse of this body stops at the second field,
    and the metrics returned with the error hold the first. *)
Lemma partial_snapshot_counterexample :
  parse part_a "5,x,3,4,5,6,7"
  = Some (mkMetrics 5 0 0 0 0 0 0,
          Some (conversion_error fRamTotalBytes (NumError "Atoi" "x" ErrSyntax)))
  /\ getMetrics part_a (respond "5,x,3,4,5,6,7") = parse part_a "5,x,3,4,5,6,7"
  /\ ~ no_partial_snapshot_as_stated part_a "5,x,3,4,5,6,7".
Proof.
  split; [reflexivity|]. split; [reflexivity|].
  intros H. specialize (H _ _ eq_refl). discriminate H.
Qed.

(** ** The evaluator *)


Lemma evaluate_only_alerts (p : program) (m : Metrics) :
  forallb is_alert (evaluate p m) = true.
Proof.
  destruct p; cbn [evaluate]; unfold MainGo.checkMetrics_rules,
    PartA.checkMetrics_rules, PartB.checkMetrics_rules;
    repeat match goal with
           | |- context [if ?b then _ else _] => destruct b
           end; reflexivity.
Qed.





(** ** The percentage *)

(** C2, amended. [calculatePercentage] returns 0 when [total] is 0. Otherwise
    [main.go] and the second program of [part_000] return the [float64]
    [float64(used) / float64(total) * 100], and the first program of
    [part_000] returns the floor of that number, as an [int]. For 50 of 200
    the three return 25 exactly. *)
Theorem calculatePercentage_value (p : program) (used total : Z) :
  percentage p used 0 = match p with part_a => VInt 0 | _ => VFloat F.zero end
  /\ (if total =? 0 then percentage p used total = percentage p used 0
      else percentage p used total
           = match p with
             | part_a => VInt (F.to_int (F.Floor (ratio100 used total)))
             | _ => VFloat (ratio100 used total)
             end)
  /\ percentage p 50 200
     = match p with part_a => VInt 25 | _ => VFloat (F.of_int 25) end
  /\ value_float (percentage p 50 200) = F.of_int 25.
Proof.
  split; [destruct p; reflexivity|]. split.
  - destruct (Z.eqb_spec total 0) as [->|N].
    + reflexivity.
    + apply Z.eqb_neq in N.
      destruct p; cbn [percentage];
        unfold MainGo.calculatePercentage, PartA.calculatePercentage,
          PartB.calculatePercentage; rewrite N; reflexivity.
  - split; destruct p; vm_compute; reflexivity.
Qed.

(** C2, as stated, fails on the first program of [part_000]: for 1 of 3 it
    returns 33, which is not [1/3*100]. *)
Lemma percentage_counterexample :
  PartA.calculatePercentage 1 3 = 33
  /\ ~ percentage_as_stated part_a 1 3.
Proof.
  split; [vm_compute; reflexivity|].
  unfold percentage_as_stated. vm_compute. discriminate.
Qed.

(** ** Negative numbers *)

(** C10. A payload whose first three tokens are negative is parsed without
    error into a snapshot with these negative fields, and evaluated as it is:
    the Memory rule fires on the ratio of two negative numbers. *)
Theorem negative_values_accepted (p : program) :
  exists m,
    In "-5" (tokenize p (negative_payload p))
    /\ parse p (negative_payload p) = Some (m, None)
    /\ m = mkMetrics (-5) (-1000) (-900) 1000000 950000 1000000 950000
    /\ LoadAverage m < 0
    /\ (forall fc,
          checkMetrics p (respond (negative_payload p)) fc
          = Some (mkOutcome (evaluate p m) 0 None))
    /\ map alert_rule (evaluate p m) = [Some Memory; Some Disk; Some Network].
Proof.
  exists (mkMetrics (-5) (-1000) (-900) 1000000 950000 1000000 950000).
  split; [destruct p; cbn; auto|].
  split; [destruct p; vm_compute; reflexivity|].
  split; [reflexivity|]. split; [reflexivity|]. split.
  - intros fc. apply checkMetrics_success. destruct p; vm_compute; reflexivity.
  - destruct p; vm_compute; reflexivity.
Qed.

(** ** The failure counter *)

Lemma consecutive_failures_snoc (f : GetResult -> bool) (l : list GetResult)
    (g : GetResult) :
  consecutive_failures f (l ++ [g])
  = if f g then S (consecutive_failures f l) else O.
Proof. unfold consecutive_failures. rewrite rev_unit. reflexivity. Qed.

Lemma leading_le_length (f : GetResult -> bool) (l : list GetResult) :
  (leading f l <= List.length l)%nat.
Proof.
  induction l as [|g l IH]; cbn; [lia|]. destruct (f g); lia.
Qed.

Lemma consecutive_failures_le (f : GetResult -> bool) (l : list GetResult) :
  (consecutive_failures f l <= List.length l)%nat.
Proof.
  unfold consecutive_failures. rewrite <- (length_rev l).
  apply leading_le_length.
Qed.

Lemma alerts_not_unavailable (lines : list line) :
  forallb is_alert lines = true -> existsb is_unavailable lines = false.
Proof.
  induction lines as [|l lines IH]; cbn; [reflexivity|].
  intros H. apply andb_true_iff in H as [Hl Hr].
  rewrite (IH Hr). destruct l; try discriminate; reflexivity.
Qed.

(** One cycle: the counter is incremented by a failure and reset by a
    success, and the diagnostic is written by a failure that brings the
    counter to 3 or more. *)
Lemma checkMetrics_cycle (p : program) (get : GetResult) (fc : Z) :
  0 <= fc < Int.MaxInt ->
  exists o,
    checkMetrics p get fc = Some o
    /\ counter o = (if failed (getMetrics p) get then fc + 1 else 0)
    /\ unavailable o = failed (getMetrics p) get && (3 <=? counter o)
    /\ errored o = failed (getMetrics p) get.
Proof.
  intros Hfc. unfold failed.
  destruct (getMetrics_total p get) as (m & [e|] & E); rewrite E.
  - destruct (checkMetrics_failure p get fc m e E) as (lines & C & _ & U).
    eexists. split; [exact C|]. unfold unavailable, errored. cbn.
    rewrite U. unfold Int.add. rewrite wrap_small by (int_consts; lia).
    auto.
  - rewrite (checkMetrics_success p get fc m E).
    eexists. split; [reflexivity|]. unfold unavailable, errored. cbn.
    rewrite alerts_not_unavailable by apply evaluate_only_alerts. auto.
Qed.

Lemma cycles_spec (p : program) (gets : list GetResult) :
  forall pre fc,
    fc = Z.of_nat (consecutive_failures (failed (getMetrics p)) pre) ->
    Z.of_nat (List.length pre + List.length gets) <= Int.MaxInt ->
    exists os,
      cycles (checkMetrics p) gets fc = map Some os
      /\ List.length os = List.length gets
      /\ forall i o g,
           nth_error os i = Some o -> nth_error gets i = Some g ->
           counter o
           = Z.of_nat (consecutive_failures (failed (getMetrics p))
                         (pre ++ upto i gets))
           /\ unavailable o = failed (getMetrics p) g && (3 <=? counter o)
           /\ errored o = failed (getMetrics p) g.
Proof.
  induction gets as [|g gets IH]; intros pre fc Hfc Hlen.
  - exists []. repeat split; auto; destruct i; discriminate.
  - pose proof (consecutive_failures_le (failed (getMetrics p)) pre) as Hle.
    cbn [List.length] in Hlen.
    destruct (checkMetrics_cycle p g fc ltac:(int_consts; lia))
      as (o & C & Hc & Hu & He).
    assert (Hfc' : counter o
                   = Z.of_nat (consecutive_failures (failed (getMetrics p))
                                 (pre ++ [g]))).
    { rewrite consecutive_failures_snoc, Hc.
      destruct (failed (getMetrics p) g); lia. }
    destruct (IH (pre ++ [g])%list (counter o) Hfc'
                ltac:(rewrite length_app; cbn [List.length]; lia))
      as (os & Eo & Lo & Ho).
    exists (o :: os). cbn [cycles]. rewrite C, Eo.
    split; [reflexivity|]. split; [cbn; lia|].
    intros [|i] o' g' Hn Hg; cbn in Hn, Hg.
    + injection Hn as <-. injection Hg as <-.
      unfold upto. cbn [firstn]. auto.
    + destruct (Ho i o' g' Hn Hg) as (A & B & D).
      unfold upto in *. cbn [firstn]. rewrite <- app_assoc in A. cbn in A.
      auto.
Qed.

(** C7. In a run of fewer than [2^63] cycles from the counter 0, the counter
    after each cycle is the number of consecutive failed cycles up to it, and
    the diagnostic is written in the failing cycles that leave the counter at
    3 or more, and in no other. So three failures and a success leave the
    counter at 0, and the diagnostic comes back with the third of the
    failures that follow. *)
Theorem failure_counter (p : program) (gets : list GetResult) :
  Z.of_nat (List.length gets) <= Int.MaxInt ->
  (exists os,
      cycles (checkMetrics p) gets 0 = map Some os
      /\ List.length os = List.length gets
      /\ forall i o g,
           nth_error os i = Some o -> nth_error gets i = Some g ->
           counter o
           = Z.of_nat (consecutive_failures (failed (getMetrics p))
                         (upto i gets))
           /\ unavailable o = failed (getMetrics p) g && (3 <=? counter o)
           /\ errored o = failed (getMetrics p) g)
  /\ (forall f1 f2 f3 s f4 f5 f6,
        forallb (failed (getMetrics p)) [f1; f2; f3; f4; f5; f6] = true ->
        failed (getMetrics p) s = false ->
        exists os,
          cycles (checkMetrics p) [f1; f2; f3; s; f4; f5; f6] 0 = map Some os
          /\ map counter os = [1; 2; 3; 0; 1; 2; 3]
          /\ map unavailable os
             = [false; false; true; false; false; false; true]).
Proof.
  intros Hlen. split.
  - destruct (cycles_spec p gets [] 0 eq_refl Hlen) as (os & E & L & H).
    exists os. auto.
  - intros f1 f2 f3 s f4 f5 f6 Hf Hs.
    cbn [forallb] in Hf.
    repeat (apply andb_true_iff in Hf as [? Hf]).
    destruct (cycles_spec p [f1; f2; f3; s; f4; f5; f6] [] 0 eq_refl
                ltac:(vm_compute; discriminate)) as (os & E & L & Hos).
    exists os. split; [exact E|].
    do 7 (destruct os as [|? os]; [discriminate L|]).
    destruct os; [|discriminate L].
    pose proof (Hos 0%nat _ _ eq_refl eq_refl) as (C0 & U0 & _).
    pose proof (Hos 1%nat _ _ eq_refl eq_refl) as (C1 & U1 & _).
    pose proof (Hos 2%nat _ _ eq_refl eq_refl) as (C2 & U2 & _).
    pose proof (Hos 3%nat _ _ eq_refl eq_refl) as (C3 & U3 & _).
    pose proof (Hos 4%nat _ _ eq_refl eq_refl) as (C4 & U4 & _).
    pose proof (Hos 5%nat _ _ eq_refl eq_refl) as (C5 & U5 & _).
    pose proof (Hos 6%nat _ _ eq_refl eq_refl) as (C6 & U6 & _).
    unfold upto, consecutive_failures in *.
    cbn [app firstn rev leading] in *.
    repeat match goal with
           | Hx : failed _ _ = _ |- _ => rewrite Hx in *; clear Hx
           end.
    cbn [leading Z.of_nat] in *.
    cbn [map]. rewrite U0, U1, U2, U3, U4, U5, U6, C0, C1, C2, C3, C4, C5, C6.
    split; reflexivity.
Qed.

Lemma failure_counter_witness :
  exists os,
    cycles (checkMetrics main_go)
      [refused; refused; refused; respond "1 2 3 4 5 6 7";
       refused; refused; refused] 0
    = map Some os
    /\ map counter os = [1; 2; 3; 0; 1; 2; 3]
    /\ map unavailable os = [false; false; true; false; false; false; true].
Proof.
  destruct (failure_counter main_go
              [refused; refused; refused; respond "1 2 3 4 5 6 7";
               refused; refused; refused])
    as [_ H].
  - vm_compute. discriminate.
  - apply (H refused refused refused (respond "1 2 3 4 5 6 7")
             refused refused refused); reflexivity.
Defined.

(** ** The polling loop *)

Lemma checkMetrics_total (p : program) (get : GetResult) (fc : Z) :
  exists o, checkMetrics p get fc = Some o.
Proof.
  destruct (getMetrics_total p get) as (m & [e|] & E).
  - destruct (checkMetrics_failure p get fc m e E) as (lines & C & _). eauto.
  - rewrite (checkMetrics_success p get fc m E). eauto.
Qed.

Lemma reachable_not_panicked (p : program) (s : Loop) :
  reachable (checkMetrics p) (on_quit p) s -> at_phase s <> Panicked.
Proof.
  intros R. induction R as [|s s' R IH St]; [discriminate|].
  destruct St as [fc out get | fc out | fc out get o C | fc out get C];
    try discriminate.
  destruct (checkMetrics_total p get fc) as [o E]. congruence.
Qed.

Lemma main_terminated (check : GetResult -> Z -> option Outcome)
    (quit_lines : list line) (events : list event) :
  forall s, at_phase s = Terminated ->
            fold_left (iteration check quit_lines) events s = s.
Proof.
  induction events as [|e events IH]; intros s H; [reflexivity|].
  cbn [fold_left]. unfold iteration at 2. rewrite H. apply IH, H.
Qed.

Lemma main_phase (p : program) (events : list event) :
  forall s, at_phase s = Idle ->
    at_phase (fold_left (iteration (checkMetrics p) (on_quit p)) events s)
    = if existsb is_quit events then Terminated else Idle.
Proof.
  induction events as [|e events IH]; intros s H; [exact H|].
  cbn [fold_left existsb]. unfold iteration at 2. rewrite H.
  destruct e as [get|]; cbn [is_quit orb].
  - destruct (checkMetrics_total p get (failuresCount s)) as [o E].
    rewrite E. apply IH. reflexivity.
  - rewrite main_terminated by reflexivity. reflexivity.
Qed.

(** C9. In every state the loop reaches, a cycle under way completes and
    leaves the loop idle, whether its request failed or not, and no panic
    stops the loop; the only step to [Terminated] is the one of the signal,
    taken from [Idle]. A run ends terminated if a signal is among its events
    and idle otherwise. *)
Theorem polling_never_stops (p : program) (s : Loop) :
  reachable (checkMetrics p) (on_quit p) s ->
  keeps_polling p s
  /\ forall events,
       at_phase (main (checkMetrics p) (on_quit p) events)
       = if existsb is_quit events then Terminated else Idle.
Proof.
  intros R. split; [|intros events; apply main_phase; reflexivity].
  split; [apply (reachable_not_panicked p), R|].
  split; [|split; [|split]].
  - intros get H. destruct s as [ph fc out]. cbn in H. subst ph.
    destruct (checkMetrics_total p get fc) as [o E].
    exists o. split; [exact E|]. intros s'. split.
    + intros St. inversion St; subst; cbn in *; congruence.
    + intros ->. cbn. apply step_cycle. exact E.
  - intros s' St H. inversion St; subst; cbn in *; try discriminate. auto.
  - intros H get. destruct s as [ph fc out]. cbn in H. subst ph.
    apply step_tick.
  - intros H s' St. inversion St; subst; cbn in H; discriminate.
Qed.

Lemma polling_never_stops_witness :
  keeps_polling part_a (mkLoop (Running refused) 0 [])
  /\ forall events,
       at_phase (main (checkMetrics part_a) (on_quit part_a) events)
       = if existsb is_quit events then Terminated else Idle.
Proof.
  apply (polling_never_stops part_a (mkLoop (Running refused) 0 [])).
  eapply reach_step; [apply reach_init | apply step_tick].
Defined.

(** ** The parser: payloads of seven numerals *)

Lemma all_bytes_impl (P Q : ascii -> bool) (s : string) :
  (forall c, P c = true -> Q c = true) ->
  all_bytes P s = true -> all_bytes Q s = true.
Proof.
  intros I. induction s as [|c s IH]; cbn; [reflexivity|].
  intros H. apply andb_true_iff in H as [Hc Hs].
  rewrite (I c Hc), (IH Hs). reflexivity.
Qed.

Lemma all_digits_all_bytes (s : string) : all_digits s = all_bytes is_digit s.
Proof. induction s as [|c s IH]; cbn; [reflexivity | now rewrite IH]. Qed.

Lemma digit_word_byte (c : ascii) :
  is_digit c = true -> word_byte c && not_comma c = true.
Proof.
  unfold is_digit, word_byte, not_comma. intros H.
  apply andb_true_iff in H as [H1 H2]. apply Z.leb_le in H1, H2.
  apply andb_true_iff. split.
  - apply andb_true_iff. split; apply Z.leb_le; lia.
  - apply negb_true_iff. destruct (Ascii.eqb_spec c ","); [|reflexivity].
    subst c. vm_compute in H1. contradiction H1. reflexivity.
Qed.

Lemma numeral_word (t : string) : numeral t = true -> word t = true.
Proof.
  destruct t as [|c t]; [discriminate|]. unfold numeral, word.
  rewrite all_digits_all_bytes. apply all_bytes_impl, digit_word_byte.
Qed.

Lemma numeral_signed (t : string) :
  numeral t = true -> signed_numeral t = Some (numeral_value t).
Proof.
  destruct t as [|c t]; [discriminate|]. intros H.
  unfold signed_numeral. rewrite H.
  cbn in H. apply andb_true_iff in H as [Hc _].
  unfold is_digit in Hc. apply andb_true_iff in Hc as [H1 H2].
  apply Z.leb_le in H1, H2.
  destruct (Z.eqb_spec (strconv.byte_val c) 45); [lia|].
  destruct (Z.eqb_spec (strconv.byte_val c) 43); [lia|].
  reflexivity.
Qed.

Lemma numeral_valid (t : string) :
  numeral t = true -> numeral_value t <= Int.MaxInt ->
  valid_int t = true /\ int_of t = numeral_value t.
Proof.
  intros H B. unfold valid_int, int_of. rewrite (numeral_signed t H).
  split; [|reflexivity].
  assert (0 <= numeral_value t)
    by (destruct t; [discriminate | apply numeral_value_bounds, H]).
  apply andb_true_iff. split; apply Z.leb_le; int_consts; lia.
Qed.

Lemma word_parts (t : string) :
  word t = true ->
  t <> EmptyString
  /\ all_bytes word_byte t = true
  /\ all_bytes (fun c => negb (Ascii.eqb c ",")) t = true.
Proof.
  destruct t as [|c t]; [discriminate|]. unfold word. intros H.
  split; [discriminate|]. split.
  - revert H. apply all_bytes_impl. intros x Hx.
    apply andb_true_iff in Hx. tauto.
  - revert H. apply all_bytes_impl. intros x Hx.
    apply andb_true_iff in Hx. unfold not_comma in Hx. tauto.
Qed.

(** Words joined by the separator of the program are the values the program
    splits the payload into. *)
Lemma tokenize_concat (p : program) (ts : list string) :
  ts <> [] -> (forall t, In t ts -> word t = true) ->
  tokenize p (String.concat (separator p) ts) = ts.
Proof.
  destruct ts as [|t ts]; [congruence|]. intros _ H.
  destruct p; cbn [tokenize separator].
  - apply Fields_concat. intros x Hx.
    destruct (word_parts x (H x Hx)) as (A & B & _). auto.
  - apply (Split_concat ","). intros x Hx. apply (word_parts x (H x Hx)).
  - apply (Split_concat ","). intros x Hx. apply (word_parts x (H x Hx)).
Qed.

Lemma token_In (f : field) (ts : list string) :
  List.length ts = 7%nat -> In (token f ts) ts.
Proof.
  intros L. unfold token. apply nth_In. rewrite L. destruct f; cbn; lia.
Qed.

Lemma parse_numerals (p : program) (ts : list string) :
  List.length ts = 7%nat ->
  (forall t, In t ts -> numeral t = true /\ numeral_value t <= Int.MaxInt) ->
  parse p (String.concat (separator p) ts) = Some (numbers_of ts, None).
Proof.
  intros L H. rewrite parse_decode, tokenize_concat.
  - rewrite decode_values_valid; [|exact L|].
    + unfold snapshot_of, numbers_of.
      repeat match goal with
             | |- context [int_of (token ?f ts)] =>
                 rewrite (proj2 (numeral_valid (token f ts)
                                   (proj1 (H _ (token_In f ts L)))
                                   (proj2 (H _ (token_In f ts L)))))
             end.
      reflexivity.
    + intros g. destruct (H _ (token_In g ts L)) as [A B].
      apply (numeral_valid _ A B).
  - destruct ts; [discriminate L | discriminate].
  - intros t Ht. apply numeral_word, H, Ht.
Qed.

(** ** The decimal rendering *)

Lemma digits_value_app (a b : string) :
  forall acc, digits_value (a ++ b) acc = digits_value b (digits_value a acc).
Proof. induction a as [|c a IH]; intros acc; cbn; [reflexivity | apply IH]. Qed.

Lemma all_digits_app (a b : string) :
  all_digits (a ++ b) = all_digits a && all_digits b.
Proof.
  induction a as [|c a IH]; cbn; [reflexivity|].
  rewrite IH. apply andb_assoc.
Qed.

Lemma digit_char (d : Z) :
  0 <= d <= 9 ->
  strconv.byte_val (ascii_of_N (Z.to_N (48 + d))) = 48 + d
  /\ is_digit (ascii_of_N (Z.to_N (48 + d))) = true.
Proof.
  intros H.
  assert (E : strconv.byte_val (ascii_of_N (Z.to_N (48 + d))) = 48 + d).
  { unfold strconv.byte_val. rewrite N_ascii_embedding by lia. lia. }
  split; [exact E|]. unfold is_digit. rewrite E.
  apply andb_true_iff. split; apply Z.leb_le; lia.
Qed.

Lemma digits_of_spec (fuel : nat) :
  forall n acc,
    (0 < fuel)%nat -> 0 <= n < 10 ^ Z.of_nat fuel ->
    exists ds,
      digits_of fuel n acc = ds ++ acc
      /\ ds <> EmptyString
      /\ all_digits ds = true
      /\ numeral_value ds = n.
Proof.
  induction fuel as [|fuel IH]; intros n acc Hf Hn; [lia|].
  cbn [digits_of].
  assert (Hd : 0 <= n mod 10 <= 9) by (pose proof (Z.mod_pos_bound n 10); lia).
  destruct (digit_char (n mod 10) Hd) as [Eb Ed].
  set (c := ascii_of_N (Z.to_N (48 + n mod 10))) in *.
  destruct (Z.ltb_spec n 10) as [Hs|Hs].
  - exists (String c EmptyString). repeat split.
    + discriminate.
    + cbn. rewrite Ed. reflexivity.
    + unfold numeral_value. cbn. rewrite Eb, Z.mod_small; lia.
  - rewrite Nat2Z.inj_succ, Z.pow_succ_r in Hn by lia.
    assert (Hq : 0 <= n / 10 < 10 ^ Z.of_nat fuel).
    { split; [apply Z.div_pos; lia|]. apply Z.div_lt_upper_bound; lia. }
    assert (Hf' : (0 < fuel)%nat).
    { destruct fuel; [|lia]. cbn in Hq.
      assert (1 <= n / 10) by (apply Z.div_le_lower_bound; lia). lia. }
    destruct (IH (n / 10) (String c acc) Hf' Hq) as (ds & E & Hne & Hall & Hv).
    exists (ds ++ String c EmptyString). repeat split.
    + rewrite E, append_assoc. reflexivity.
    + destruct ds; [congruence|discriminate].
    + rewrite all_digits_app, Hall. cbn. rewrite Ed. reflexivity.
    + unfold numeral_value in *. rewrite digits_value_app, Hv.
      cbn [digits_value].
      rewrite Eb. pose proof (Z.div_mod n 10 ltac:(lia)). lia.
Qed.

(** The rendering of a non-negative [int] is a numeral of that integer. *)
Lemma render_int_numeral (n : Z) :
  0 <= n <= Int.MaxInt ->
  numeral (render_int n) = true /\ numeral_value (render_int n) = n.
Proof.
  intros H. unfold render_int.
  destruct (digits_of_spec 19 n EmptyString ltac:(lia)) as (ds & E & Hne & Hall & Hv).
  { change (10 ^ Z.of_nat 19) with 10000000000000000000. int_consts. lia. }
  rewrite E, append_nil_r. split; [|exact Hv].
  destruct ds; [congruence | exact Hall].
Qed.

Lemma token_map (f : field) (h : field -> string) :
  token f (map h fields) = h f.
Proof. destruct f; reflexivity. Qed.

(** C3, amended. A payload of seven decimal numerals, none above [2^63 - 1],
    joined by the separator of the program is parsed without error into the
    snapshot of the seven integers, in the order of the fields; so parsing
    the rendering of a snapshot of non-negative [int]s gives the snapshot
    back. *)
Theorem parse_round_trip (p : program) :
  (forall ts,
      List.length ts = 7%nat ->
      (forall t, In t ts -> numeral t = true /\ numeral_value t <= Int.MaxInt) ->
      parse p (String.concat (separator p) ts) = Some (numbers_of ts, None))
  /\ (forall m,
        (forall f, 0 <= field_get f m <= Int.MaxInt) ->
        parse p (render (separator p) m) = Some (m, None)).
Proof.
  split; [apply parse_numerals|].
  intros m H. unfold render.
  rewrite parse_numerals.
  - unfold numbers_of. rewrite !token_map.
    rewrite !(fun f => proj2 (render_int_numeral _ (H f))).
    destruct m; reflexivity.
  - reflexivity.
  - intros t Ht. apply in_map_iff in Ht as (f & <- & _).
    destruct (render_int_numeral _ (H f)) as [A B]. rewrite B.
    split; [exact A | apply H].
Qed.

Lemma parse_round_trip_witness :
  parse main_go "35 1000 900 1000000 950000 1000000 950000"
  = Some (scenario, None)
  /\ parse part_a (render "," scenario) = Some (scenario, None).
Proof.
  split.
  - apply (proj1 (parse_round_trip main_go)
             ["35"; "1000"; "900"; "1000000"; "950000"; "1000000"; "950000"]).
    + reflexivity.
    + intros t Ht. cbn in Ht.
      repeat (destruct Ht as [<-|Ht];
              [split; [reflexivity | vm_compute; discriminate]|]).
      contradiction.
  - apply (proj2 (parse_round_trip part_a) scenario).
    intros []; vm_compute; split; discriminate.
Defined.

(** C3, as stated, fails: [2^63] is a non-negative decimal integer and the
    conversion of its numeral is a range error. *)
Lemma round_trip_counterexample :
  ~ round_trip_as_stated main_go too_large
  /\ ~ round_trip_as_stated part_a too_large
  /\ parse main_go (String.concat " " too_large)
     = Some (mkMetrics Int.MaxInt 0 0 0 0 0 0,
             Some (conversion_error fLoadAverage
                     (NumError "Atoi" "9223372036854775808" ErrRange))).
Proof.
  split; [|split; [|vm_compute; reflexivity]];
    intros H; specialize (H eq_refl eq_refl); vm_compute in H; discriminate H.
Qed.

(** ** Signs of [float64] results *)

Lemma binary_round_aux_sign (s : bool) (mx ex : Z) (lx : location) :
  let r := binary_round_aux F.prec F.emax s mx ex lx in
  r = S754_nan \/ sign_bit r = Some s.
Proof.
  unfold binary_round_aux.
  destruct (shr_fexp F.prec F.emax mx ex lx) as [mrs' e'].
  destruct (shr_fexp F.prec F.emax _ e' loc_Exact) as [mrs'' e''].
  destruct (shr_m mrs'') as [|m|m]; cbv zeta.
  - right. reflexivity.
  - destruct (Z.leb e'' (Z.sub F.emax F.prec)); right; reflexivity.
  - left. reflexivity.
Qed.

Lemma binary_round_sign (s : bool) (m : positive) (e : Z) :
  let r := binary_round F.prec F.emax s m e in
  r = S754_nan \/ sign_bit r = Some s.
Proof.
  unfold binary_round.
  destruct (shl_align m e _) as [mz ez]. apply binary_round_aux_sign.
Qed.

Lemma of_int_sign (n : Z) :
  n <> 0 -> F.of_int n = S754_nan \/ sign_bit (F.of_int n) = Some (n <? 0).
Proof.
  intros H. unfold F.of_int, binary_normalize.
  destruct n as [|m|m]; [congruence| |]; apply binary_round_sign.
Qed.

Lemma gt_const_above_zero (x : F.float64) (t : Z) :
  0 < t -> above_zero (F.of_int t) = true ->
  F.gt x (F.of_int t) = true -> above_zero x = true.
Proof.
  intros _ Hc. unfold F.gt, SFltb.
  destruct (F.of_int t) as [| [] | | [] mc ec]; try discriminate Hc.
  - destruct x as [[]|[]| |[] ? ?]; cbn; try discriminate; reflexivity.
  - destruct x as [[]|[]| |[] ? ?]; cbn; try discriminate; reflexivity.
Qed.

Lemma mul_above_zero_l (a c : F.float64) :
  above_zero c = true -> above_zero (F.mul a c) = true -> above_zero a = true.
Proof.
  intros Hc. destruct c as [| [] | | [] mc ec]; try discriminate Hc;
    destruct a as [sa|sa| |sa ma ea]; cbn; try discriminate;
    try (destruct sa; cbn; congruence).
  intros H.
  destruct (binary_round_aux_sign (xorb sa false) (Z.pos (ma * mc)) (ea + ec)
              loc_Exact) as [E|E]; cbv zeta in E.
  - unfold F.mul in H. cbn in H. rewrite E in H. discriminate.
  - unfold F.mul in H. cbn [SFmul] in H.
    destruct (binary_round_aux F.prec F.emax (xorb sa false) _ _ _)
      as [s'|s'| |s' ? ?]; cbn in E, H; try discriminate;
      injection E as ->; destruct sa; cbn in H; congruence.
Qed.

Lemma div_above_zero (a b : F.float64) :
  above_zero (F.div a b) = true ->
  is_zero a = false
  /\ exists s, sign_bit a = Some s /\ sign_bit b = Some s.
Proof.
  assert (X : forall sa sb,
             (if xorb sa sb then false else true) = true ->
             false = false /\ exists s, Some sa = Some s /\ Some sb = Some s).
  { intros [] []; cbn; intros H; try discriminate H; eauto. }
  destruct a as [sa|sa| |sa ma ea], b as [sb|sb| |sb mb eb]; cbn;
    try discriminate; try apply X.
  intros H.
  destruct (SFdiv_core_binary F.prec F.emax (Z.pos ma) ea (Z.pos mb) eb)
    as [[mz ez] lz].
  destruct (binary_round_aux_sign (xorb sa sb) mz ez lz) as [E|E];
    cbv zeta in E.
  - rewrite E in H. discriminate.
  - destruct (binary_round_aux F.prec F.emax (xorb sa sb) mz ez lz)
      as [s'|s'| |s' ? ?]; cbn in E, H; try discriminate;
      injection E as ->; apply X; exact H.
Qed.

(** A ratio above a positive constant is the ratio of two integers of the
    same sign, neither of which is zero. *)
Lemma ratio100_above_zero (used total : Z) :
  total <> 0 -> above_zero (ratio100 used total) = true ->
  (0 < used /\ 0 < total) \/ (used < 0 /\ total < 0).
Proof.
  intros Ht H. unfold ratio100 in H.
  apply mul_above_zero_l in H; [|reflexivity].
  apply div_above_zero in H as (Hz & s & Ha & Hb).
  assert (Hu : used <> 0).
  { intros ->. discriminate Hz. }
  destruct (of_int_sign used Hu) as [E|E]; [rewrite E in Ha; discriminate|].
  destruct (of_int_sign total Ht) as [E'|E']; [rewrite E' in Hb; discriminate|].
  rewrite Ha in E. rewrite Hb in E'.
  injection E as E. injection E' as E'.
  destruct (Z.ltb_spec used 0), (Z.ltb_spec total 0); subst s;
    try discriminate; lia.
Qed.

Lemma to_int_not_above (r : F.float64) :
  r = S754_nan \/ sign_bit r = Some true -> F.to_int r <= 0.
Proof.
  assert (Hmin : Int.MinInt <= 0) by (int_consts; lia).
  intros [->|H]; [exact Hmin|].
  destruct r as [s|s| |s m e]; cbn [sign_bit] in H.
  - discriminate.
  - exact Hmin.
  - discriminate H.
  - injection H as ->. unfold F.to_int.
    set (a := if 0 <=? e then Z.pos m * 2 ^ e else Z.pos m / 2 ^ (- e)).
    assert (Ha : 0 <= a).
    { unfold a. destruct (Z.leb_spec 0 e).
      - apply Z.mul_nonneg_nonneg; [lia | apply Z.pow_nonneg; lia].
      - apply Z.div_pos; [lia | apply Z.pow_pos_nonneg; lia]. }
    destruct ((Int.MinInt <=? - a) && (- a <=? Int.MaxInt)); [lia | exact Hmin].
Qed.

Lemma floor_to_int_above_zero (x : F.float64) (t : Z) :
  0 <= t -> (F.to_int (F.Floor x) >? t) = true -> above_zero x = true.
Proof.
  intros Ht H. apply Z.gtb_lt in H.
  destruct x as [s|s| |s m e]; cbn [F.Floor] in H.
  - cbn in H. lia.
  - change (F.to_int (S754_infinity s)) with Int.MinInt in H.
    int_consts. lia.
  - change (F.to_int S754_nan) with Int.MinInt in H. int_consts. lia.
  - destruct s; [|reflexivity]. exfalso.
    assert (F.to_int (if 0 <=? e then S754_finite true m e
                      else binary_normalize F.prec F.emax
                             (Z.neg m / 2 ^ (- e)) 0 true) <= 0); [|lia].
    destruct (Z.leb_spec 0 e) as [He|He].
    + apply to_int_not_above. right. reflexivity.
    + assert (Hq : Z.neg m / 2 ^ (- e) < 0).
      { apply Z.div_lt_upper_bound; [apply Z.pow_pos_nonneg; lia | lia]. }
      destruct (Z.neg m / 2 ^ (- e)) as [|q|q]; try lia.
      apply to_int_not_above. apply binary_round_sign.
Qed.

(** A rule on a percentage fires only for two integers of the same sign. *)
Lemma exceeds_same_sign (p : program) (used total t : Z) :
  t = 80 \/ t = 90 ->
  exceeds (percentage p used total) t = true ->
  (0 < used /\ 0 < total) \/ (used < 0 /\ total < 0).
Proof.
  intros Ht.
  assert (Hc : above_zero (F.of_int t) = true)
    by (destruct Ht; subst t; reflexivity).
  assert (Hz : F.gt F.zero (F.of_int t) = false)
    by (destruct Ht; subst t; reflexivity).
  assert (Hi : (0 >? t) = false) by (destruct Ht; subst t; reflexivity).
  destruct p; cbn [percentage exceeds];
    unfold MainGo.calculatePercentage, PartA.calculatePercentage,
      PartB.calculatePercentage;
    destruct (Z.eqb_spec total 0) as [E|E]; intros H.
  - rewrite Hz in H. discriminate H.
  - apply (ratio100_above_zero used total E).
    apply (gt_const_above_zero _ t); [lia | exact Hc | exact H].
  - rewrite Hi in H. discriminate H.
  - apply (ratio100_above_zero used total E).
    apply (floor_to_int_above_zero _ t); [lia | exact H].
  - rewrite Hz in H. discriminate H.
  - apply (ratio100_above_zero used total E).
    apply (gt_const_above_zero _ t); [lia | exact Hc | exact H].
Qed.

Lemma left_no_wrap (total usage : Z) :
  Int.in_range total -> Int.in_range usage ->
  (0 < usage /\ 0 < total) \/ (usage < 0 /\ total < 0) ->
  Int.quo (Int.sub total usage) MiB = Z.quot (total - usage) (1024 * 1024)
  /\ Int.mul (Int.quo (Int.sub total usage) MiB) 8
     = Z.quot (total - usage) (1024 * 1024) * 8
  /\ Int.sub total usage = total - usage.
Proof.
  intros Rt Ru S. unfold Int.quo, Int.mul, Int.sub.
  assert (R : Int.in_range (total - usage)) by (int_consts; lia).
  rewrite (wrap_small _ R).
  change MiB with 1048576. change (1024 * 1024) with 1048576.
  assert (Q : - 8796093022208 <= Z.quot (total - usage) 1048576 <= 8796093022208).
  { int_consts. Z.quot_rem_to_equations. lia. }
  rewrite (wrap_small (Z.quot _ _)) by (int_consts; lia).
  split; [reflexivity|]. split; [|reflexivity].
  apply wrap_small. int_consts. lia.
Qed.

(** ** The payloads of the Disk and Network alerts *)

(** C8, amended. For a snapshot of [int]s, the Disk alert, when its rule
    fires, prints [(diskTotal - diskUsage) / (1024*1024)] as an integer, the
    division being the one of Go on integers, which drops the fraction; in the
    first program of [part_000] the Network alert, when its rule fires, prints
    the [float64] [float64(networkBandwidth - networkLoad) / (1024*1024) * 8].
    No subtraction overflows, and each rule writes at most one line. *)
Theorem alert_payloads (p : program) (m : Metrics) :
  (forall f, Int.in_range (field_get f m)) ->
  of_rule Disk (evaluate p m)
  = (if fires p m Disk then [Alert Disk (disk_payload m)] else [])
  /\ of_rule Network (evaluate part_a m)
     = (if fires part_a m Network then [Alert Network (network_payload_float m)]
        else []).
Proof.
  intros R. split.
  - assert (HD : fires p m Disk = true ->
                 Int.quo (Int.sub (DiskTotalBytes m) (DiskUsageBytes m)) MiB
                 = Z.quot (DiskTotalBytes m - DiskUsageBytes m) (1024 * 1024)).
    { intros H. apply left_no_wrap;
        [apply (R fDiskTotalBytes) | apply (R fDiskUsageBytes)|].
      apply (exceeds_same_sign p _ _ 90); [now right | exact H]. }
    unfold disk_payload.
    destruct p; cbn [evaluate];
      unfold MainGo.checkMetrics_rules, PartA.checkMetrics_rules,
        PartB.checkMetrics_rules;
      cbn [fires percentage exceeds] in *;
      destruct (LoadAverage m >? 30);
      match goal with
      | |- context [Alert Memory (?c ?x)] =>
          match goal with
          | |- context [if ?b then [Alert Memory (c x)] else []] => destruct b
          end
      end;
      match goal with
      | |- context [if ?b then [Alert Network _] else []] => destruct b
      end;
      match goal with
      | |- context [if ?b then [Alert Disk _] else []] =>
          destruct b eqn:D; [rewrite (HD eq_refl) | clear HD]
      end;
      reflexivity.
  - assert (HN : fires part_a m Network = true ->
                 Int.sub (NetworkBandwidthBytesPerSecond m)
                   (NetworkLoadBytesPerSecond m)
                 = NetworkBandwidthBytesPerSecond m
                   - NetworkLoadBytesPerSecond m).
    { intros H. apply left_no_wrap;
        [apply (R fNetworkBandwidthBytesPerSecond)
        | apply (R fNetworkLoadBytesPerSecond)|].
      apply (exceeds_same_sign part_a _ _ 90); [now right | exact H]. }
    unfold network_payload_float, remaining.
    cbn [evaluate]. unfold PartA.checkMetrics_rules.
    cbn [fires percentage exceeds] in *.
    destruct (LoadAverage m >? 30);
      destruct (PartA.calculatePercentage (RamUsageBytes m) (RamTotalBytes m)
                >? 80);
      destruct (PartA.calculatePercentage (DiskUsageBytes m)
                  (DiskTotalBytes m) >? 90);
      match goal with
      | |- context [if ?b then [Alert Network _] else []] =>
          destruct b eqn:N; [rewrite (HN eq_refl) | clear HN]
      end;
      reflexivity.
Qed.

Lemma alert_payloads_witness :
  of_rule Disk (evaluate part_a scenario) = [Alert Disk (VInt 0)]
  /\ of_rule Network (evaluate part_a scenario)
     = [Alert Network (VFloat (S754_finite false 6871947673600000 (-54)))].
Proof.
  apply (alert_payloads part_a scenario).
  intros []; vm_compute; split; discriminate.
Defined.

(** C8, as stated, fails where the program divides integers: in the
    scenario 50000 bytes of disk are left, about 0.048 of [2^20], and the Disk
    alert prints 0. *)
Lemma truncated_payload_counterexample :
  of_rule Disk (evaluate main_go scenario) = [Alert Disk (VInt 0)]
  /\ ~ payloads_as_stated main_go scenario
  /\ ~ payloads_as_stated part_a scenario.
Proof.
  split; [vm_compute; reflexivity|].
  split; intros [H _];
    specialize (H (VInt 0) ltac:(vm_compute; tauto));
    vm_compute in H; discriminate H.
Qed.

(** * Further properties of the code *)

(** ** What the parser accepts *)

(** The parser accepts a body exactly when the split yields seven tokens
    each of which is a decimal numeral with an optional sign whose integer
    fits [int]; the snapshot is then made of these seven integers, in the
    order of the fields. Leading zeros and a leading [+] are accepted; white
    space inside a token, an empty token or a decimal point are not. *)
Theorem parse_accepts_iff (p : program) (body : string) (m : Metrics) :
  parse p body = Some (m, None)
  <-> (List.length (tokenize p body) = 7%nat
       /\ (forall g, valid_int (token g (tokenize p body)) = true)
       /\ m = snapshot_of (tokenize p body)).
Proof.
  split.
  - apply parse_success.
  - intros (L & V & ->). rewrite parse_decode.
    apply decode_values_valid; assumption.
Qed.

(** ** What a failed conversion leaves in the metrics *)

Lemma Atoi_error_value (s : string) (c : Z) (e : error) :
  strconv.Atoi s = (c, Some e) ->
  (e = NumError "Atoi" s ErrSyntax /\ c = 0)
  \/ (e = NumError "Atoi" s ErrRange /\ (c = Int.MaxInt \/ c = Int.MinInt)).
Proof.
  unfold strconv.Atoi.
  destruct ((0 <? Z.of_nat (String.length s))
            && (Z.of_nat (String.length s) <? 19)).
  - destruct s as [|c0 rest]; [intros H; injection H as <- <-; now left|].
    destruct (strconv.is_sign c0 && _);
      [intros H; injection H as <- <-; now left|].
    destruct (strconv.fast_loop _ 0);
      [discriminate | intros H; injection H as <- <-; now left].
  - unfold strconv.ParseInt10.
    destruct s as [|c0 rest]; [intros H; injection H as <- <-; now left|].
    destruct (strconv.ParseUint10 _) as [un [[]|]];
      try (intros H; injection H as <- <-; now left).
    + destruct (negb _ && _);
        [intros H; injection H as <- <-; right; split; [reflexivity|now left]|].
      destruct (_ && _);
        [intros H; injection H as <- <-; right; split; [reflexivity|now right]
        | discriminate].
    + destruct (negb _ && _);
        [intros H; injection H as <- <-; right; split; [reflexivity|now left]|].
      destruct (_ && _);
        [intros H; injection H as <- <-; right; split; [reflexivity|now right]
        | discriminate].
Qed.

Lemma assign_all_first_invalid_result (values : list string) (f : field)
    (fs2 : list field) (c : Z) (e : error) :
  List.length values = 7%nat ->
  strconv.Atoi (token f values) = (c, Some e) ->
  forall fs1 m,
    (forall g, In g fs1 -> valid_int (token g values) = true) ->
    assign_all (fs1 ++ f :: fs2)%list values m
    = Some (field_set f c
              (fold_left
                 (fun m' g => field_set g (int_of (token g values)) m') fs1 m),
            Some (wrapError (field_format f) e)).
Proof.
  intros L A. induction fs1 as [|g fs1 IH]; intros m Hok.
  - cbn [app assign_all fold_left]. unfold assign.
    rewrite (token_nth_error f values L), A. reflexivity.
  - cbn [app assign_all fold_left]. unfold assign at 1.
    rewrite (token_nth_error g values L).
    destruct (Atoi_valid _ (Hok g (or_introl eq_refl))) as (v & Ev & _ & E).
    rewrite E. unfold int_of at 2. rewrite Ev.
    apply IH. intros h Hh. apply Hok. now right.
Qed.

(** When the parser stops at field [f], the metrics it returns with the
    error hold the integers of the tokens before [f], zero in the fields
    after [f], and in [f] itself what [strconv.Atoi] returns with its error:
    0 for a syntax error, the largest or the smallest [int] for a range
    error. *)
Theorem conversion_failure_leaves (p : program) (body : string) (f : field)
    (m : Metrics) (e : error) :
  parse p body = Some (m, Some (conversion_error f e)) ->
  (forall g, (field_index g < field_index f)%nat ->
             field_get g m = int_of (token g (tokenize p body)))
  /\ (forall g, (field_index f < field_index g)%nat -> field_get g m = 0)
  /\ ((e = NumError "Atoi" (token f (tokenize p body)) ErrSyntax
       /\ field_get f m = 0)
      \/ (e = NumError "Atoi" (token f (tokenize p body)) ErrRange
          /\ (field_get f m = Int.MaxInt \/ field_get f m = Int.MinInt))).
Proof.
  rewrite parse_decode. set (values := tokenize p body).
  destruct (decode_values_cases values Metrics_zero)
    as [[L E]|[(L & V & E)|(L & f' & m' & k & Hbad & Hok & E)]];
    rewrite E; intros H; try discriminate H.
  injection H as <- Hf <-.
  assert (f' = f) as ->.
  { destruct f', f; cbn in Hf; congruence. }
  clear Hf.
  destruct (strconv.Atoi (token f values)) as [c [e0|]] eqn:A;
    [|apply (f_equal snd), Atoi_ok_iff in A; congruence].
  rewrite (decode_values_7 _ _ L), parseMetrics_unfold, (fields_split f) in E.
  rewrite (assign_all_first_invalid_result values f (after f) c e0 L A)
    in E by (intros g Hg; apply Hok, before_index, Hg).
  injection E as Em Ee.
  destruct (Atoi_error_value _ _ _ A) as [[-> Hc]|[-> Hc]];
    injection Ee as <-; subst m'.
  - split; [|split; [|left; split; [reflexivity|]]].
    + destruct f; intros []; cbn; intros; (lia || reflexivity).
    + destruct f; intros []; cbn; intros; (lia || reflexivity).
    + destruct f; cbn; exact Hc.
  - split; [|split; [|right; split; [reflexivity|]]].
    + destruct f; intros []; cbn; intros; (lia || reflexivity).
    + destruct f; intros []; cbn; intros; (lia || reflexivity).
    + destruct f; cbn; exact Hc.
Qed.

Lemma conversion_failure_leaves_witness :
  field_get fLoadAverage (mkMetrics 5 Int.MaxInt 0 0 0 0 0) = int_of "5"
  /\ field_get fDiskTotalBytes (mkMetrics 5 Int.MaxInt 0 0 0 0 0) = 0
  /\ field_get fRamTotalBytes (mkMetrics 5 Int.MaxInt 0 0 0 0 0) = Int.MaxInt.
Proof.
  destruct (conversion_failure_leaves part_b "5,99999999999999999999,3,4,5,6,7"
              fRamTotalBytes (mkMetrics 5 Int.MaxInt 0 0 0 0 0)
              (NumError "Atoi" "99999999999999999999" ErrRange))
    as (B & A & _).
  - vm_compute. reflexivity.
  - split; [apply (B fLoadAverage); cbn; lia|].
    split; [apply (A fDiskTotalBytes); cbn; lia | reflexivity].
Defined.

(** ** The values [parseMetrics] reads *)

Lemma assign_all_ext (v1 v2 : list string) (fs : list field) :
  (forall f, In f fs ->
             nth_error v1 (field_index f) = nth_error v2 (field_index f)) ->
  forall m, assign_all fs v1 m = assign_all fs v2 m.
Proof.
  induction fs as [|f fs IH]; intros H m; [reflexivity|].
  cbn [assign_all]. unfold assign.
  rewrite (H f (or_introl eq_refl)).
  destruct (nth_error v2 (field_index f)) as [v|]; [|reflexivity].
  destruct (strconv.Atoi v) as [n [e|]]; [reflexivity|].
  apply IH. intros g Hg. apply H. now right.
Qed.

Lemma assign_all_missing (values : list string) (fs : list field) :
  (forall v, In v values -> valid_int v = true) ->
  (exists f, In f fs /\ (List.length values <= field_index f)%nat) ->
  forall m, assign_all fs values m = None.
Proof.
  intros V. induction fs as [|f fs IH]; intros (g & Hg & Hlen) m.
  - contradiction.
  - cbn [assign_all]. unfold assign.
    destruct (nth_error values (field_index f)) as [v|] eqn:N; [|reflexivity].
    destruct (Atoi_valid v (V v (nth_error_In _ _ N))) as (n & _ & _ & E).
    rewrite E. apply IH.
    destruct Hg as [<-|Hg].
    + apply nth_error_None in Hlen. congruence.
    + exists g. auto.
Qed.

(** [parseMetrics] reads [values[0]] to [values[6]] and nothing else. Called
    with fewer than seven values, all of them valid, it stops with an index
    out of range, which is why [getMetrics] checks the length first; values
    after the seventh do not change its result. *)
Theorem parseMetrics_reads_seven (values extra : list string) (m : Metrics) :
  ((List.length values < 7)%nat ->
   (forall v, In v values -> valid_int v = true) ->
   parseMetrics values m = None)
  /\ ((7 <= List.length values)%nat ->
      parseMetrics (values ++ extra) m = parseMetrics values m
      /\ parseMetrics values m <> None).
Proof.
  split.
  - intros L V. rewrite parseMetrics_unfold.
    apply assign_all_missing; [exact V|].
    exists fNetworkLoadBytesPerSecond. split; [cbn; tauto | cbn; lia].
  - intros L. rewrite !parseMetrics_unfold. split.
    + apply assign_all_ext. intros f _.
      apply nth_error_app1. destruct f; cbn; lia.
    + rewrite parseMetrics_unfold.
      rewrite (assign_all_ext values (firstn 7 values)).
      * destruct (assign_all_total fields (firstn 7 values)
                    ltac:(rewrite length_firstn; lia) m) as (m' & err & E).
        rewrite E. discriminate.
      * intros f _. rewrite nth_error_firstn.
        destruct f; reflexivity.
Qed.

Lemma parseMetrics_reads_seven_witness :
  parseMetrics ["1"; "2"; "3"] Metrics_zero = None
  /\ parseMetrics (["1"; "2"; "3"; "4"; "5"; "6"; "7"] ++ ["x"]) Metrics_zero
     = parseMetrics ["1"; "2"; "3"; "4"; "5"; "6"; "7"] Metrics_zero.
Proof.
  split.
  - apply (proj1 (parseMetrics_reads_seven ["1"; "2"; "3"] [] Metrics_zero)).
    + cbn. lia.
    + intros v Hv. cbn in Hv.
      repeat (destruct Hv as [<-|Hv]; [reflexivity|]). contradiction.
  - apply (proj2 (parseMetrics_reads_seven
                    ["1"; "2"; "3"; "4"; "5"; "6"; "7"] ["x"] Metrics_zero)).
    cbn. lia.
Defined.

(** ** When a rule on a percentage can fire *)

(** A rule on a percentage fires only when the usage and the total are both
    above zero or both below zero: never when the total is 0, never when the
    usage is 0, never when their signs differ. *)
Theorem percentage_rule_same_sign (p : program) (m : Metrics) (r : rule)
    (used total : Z) :
  operands r m = Some (used, total) ->
  fires p m r = true ->
  (0 < used /\ 0 < total) \/ (used < 0 /\ total < 0).
Proof.
  intros O H. destruct r; cbn in O; try discriminate O;
    injection O as <- <-; cbn [fires] in H.
  - apply (exceeds_same_sign p _ _ 80); [now left | exact H].
  - apply (exceeds_same_sign p _ _ 90); [now right | exact H].
  - apply (exceeds_same_sign p _ _ 90); [now right | exact H].
Qed.

Lemma percentage_rule_same_sign_witness :
  (0 < 900 /\ 0 < 1000) \/ (900 < 0 /\ 1000 < 0).
Proof.
  apply (percentage_rule_same_sign part_a scenario Memory 900 1000).
  - reflexivity.
  - vm_compute. reflexivity.
Defined.

(** ** The errors of [getMetrics] *)

(** Every error [getMetrics] returns is of one of five kinds: the request
    failed (the error of [http.Get], wrapped); in [main.go] only, the
    Content-Type is not [text/plain]; the body could not be read (the first
    program of [part_000] drops the cause, the others wrap it); the number of
    values is not 7 (the error carries the number found); or a value is not an
    integer (the error of [strconv.Atoi], wrapped twice). In the first four
    cases the metrics returned are the zero value. *)
Theorem getMetrics_errors (p : program) (get : GetResult) (m : Metrics)
    (e : error) :
  getMetrics p get = Some (m, Some e) ->
  (m = Metrics_zero
   /\ exists err,
        get = GetFailed err /\ e = wrapError "error fetching metrics: %w" err)
  \/ (m = Metrics_zero /\ p = main_go
      /\ e = errorString "Content-Type mismatch"
      /\ exists resp, get = GetOk resp /\ ContentType resp <> "text/plain")
  \/ (m = Metrics_zero
      /\ ((p = part_a /\ e = errorString "error reading")
          \/ (p <> part_a
              /\ exists err,
                   e = wrapError "error reading response body: %w" err)))
  \/ (m = Metrics_zero
      /\ exists n, n <> 7
           /\ e = errorf_d "unexpected number of metrics: expected 7, got %d" n)
  \/ (exists f token k,
        valid_int token = false
        /\ e = conversion_error f (NumError "Atoi" token k)).
Proof.
  assert (P : forall body,
             parse p body = Some (m, Some e) ->
             (m = Metrics_zero
              /\ exists n, n <> 7
                   /\ e = errorf_d
                            "unexpected number of metrics: expected 7, got %d" n)
             \/ (exists f token k,
                   valid_int token = false
                   /\ e = conversion_error f (NumError "Atoi" token k))).
  { intros body. rewrite parse_decode.
    destruct (decode_values_cases (tokenize p body) Metrics_zero)
      as [[L E]|[(L & V & E)|(L & f & m' & k & Hbad & _ & E)]];
      rewrite E; intros H; try discriminate H; injection H as <- <-.
    - left. split; [reflexivity|]. eexists. split; [|reflexivity]. lia.
    - right. eauto. }
  destruct p, get as [err|resp]; cbn [getMetrics];
    unfold MainGo.getMetrics, PartA.getMetrics, PartB.getMetrics.
  - intros H. injection H as <- <-. left. eauto.
  - destruct (String.eqb_spec (ContentType resp) "text/plain") as [C|C];
      cbn [negb].
    + unfold ReadAll. destruct (end_err (body resp)) as [err|].
      * destruct err;
          try (intros H; injection H as <- <-; right; right; left;
               split; [reflexivity|]; right; split; [discriminate|eauto]).
        intros H. right. right. right.
        apply (P (String.concat "" (chunks (body resp)))). exact H.
      * intros H. right. right. right.
        apply (P (String.concat "" (chunks (body resp)))). exact H.
    + intros H. injection H as <- <-. right. left.
      repeat split; eauto.
  - intros H. injection H as <- <-. left. eauto.
  - destruct (Read1024 (body resp)) as [bytes [err|]].
    + destruct err; try (intros H; injection H as <- <-; right; right; left;
                         split; [reflexivity|]; left; split; reflexivity).
      intros H. right. right. right. apply (P bytes). exact H.
    + intros H. right. right. right. apply (P bytes). exact H.
  - intros H. injection H as <- <-. left. eauto.
  - unfold ReadAll. destruct (end_err (body resp)) as [err|].
    + destruct err;
        try (intros H; injection H as <- <-; right; right; left;
             split; [reflexivity|]; right; split; [discriminate|eauto]).
      intros H. right. right. right.
      apply (P (String.concat "" (chunks (body resp)))). exact H.
    + intros H. right. right. right.
      apply (P (String.concat "" (chunks (body resp)))). exact H.
Qed.

Lemma getMetrics_errors_witness :
  exists resp,
    GetOk (mkResponse "application/json" (mkBody ["1 2 3 4 5 6 7"] None))
    = GetOk resp
    /\ ContentType resp <> "text/plain".
Proof.
  destruct (getMetrics_errors main_go
              (GetOk (mkResponse "application/json"
                        (mkBody ["1 2 3 4 5 6 7"] None)))
              Metrics_zero (errorString "Content-Type mismatch") eq_refl)
    as [(_ & err & H & _)|[(_ & _ & _ & H)|[(_ & [[H _]|[_ [err H]]])
                                           |[(_ & n & _ & H)
                                            |(f & t & k & _ & H)]]]];
    try discriminate H.
  exact H.
Defined.

(** ** What the first program of [part_000] reads *)

Lemma substring_all (n : nat) (c : string) :
  (String.length c <= n)%nat -> String.substring 0 n c = c.
Proof.
  revert n. induction c as [|x c IH]; intros n H.
  - destruct n; reflexivity.
  - destruct n as [|n]; cbn in H; [lia|].
    cbn. rewrite IH by lia. reflexivity.
Qed.

(** The first program of [part_000] reads the body once: its result is the
    parse of the first 1024 bytes of what the first read delivers, whatever
    arrives after. The second program reads the whole body, so the two agree
    on a body that arrives in one read of at most 1024 bytes. *)
Theorem first_read_only (ct : string) (c : string) (rest : list string)
    (end_of_body : option error) :
  getMetrics part_a (GetOk (mkResponse ct (mkBody (c :: rest) end_of_body)))
  = parse part_a (String.substring 0 1024 c)
  /\ ((String.length c <= 1024)%nat ->
      getMetrics part_a (GetOk (mkResponse ct (mkBody [c] None)))
      = getMetrics part_b (GetOk (mkResponse ct (mkBody [c] None)))).
Proof.
  split; [reflexivity|]. intros H.
  cbn [getMetrics]. unfold PartA.getMetrics, PartB.getMetrics, Read1024, ReadAll.
  cbn [body chunks end_err String.concat].
  rewrite (substring_all 1024 c H). reflexivity.
Qed.

Lemma first_read_only_witness :
  getMetrics part_a (GetOk (mkResponse "text/plain" (mkBody ["1,2,3,4,5,6,7"] None)))
  = getMetrics part_b (GetOk (mkResponse "text/plain" (mkBody ["1,2,3,4,5,6,7"] None))).
Proof.
  apply (proj2 (first_read_only "text/plain" "1,2,3,4,5,6,7" [] None)).
  cbn. lia.
Defined.

(** ** The number of values *)

Lemma Split_length (s : string) (sep : ascii) :
  List.length (strings.Split s sep) = S (count_byte sep s).
Proof.
  induction s as [|x s IH]; [reflexivity|].
  cbn [strings.Split count_byte].
  destruct (Ascii.eqb x sep).
  - cbn [List.length]. rewrite IH. reflexivity.
  - destruct (strings.Split s sep) as [|t ts] eqn:E;
      [exfalso; revert E; apply Split_not_nil|].
    cbn [List.length] in *. exact IH.
Qed.

(** In the programs of [part_000] the number of values is the number of
    commas of the body plus one: the body passes the count exactly when it has
    six commas, and otherwise the error reports the number of commas plus
    one, 1 for an empty body. *)
Theorem comma_count (p : program) (body : string) :
  p <> main_go ->
  List.length (tokenize p body) = S (count_byte "," body)
  /\ fails_with_field_count (parse p body)
     = negb (count_byte "," body =? 6)%nat
  /\ (count_byte "," body <> 6%nat ->
      parse p body
      = Some (Metrics_zero,
              Some (errorf_d "unexpected number of metrics: expected 7, got %d"
                      (Z.of_nat (count_byte "," body) + 1)))).
Proof.
  intros Hp.
  assert (T : tokenize p body = strings.Split body ",")
    by (destruct p; [congruence | reflexivity | reflexivity]).
  assert (L : List.length (tokenize p body) = S (count_byte "," body))
    by (rewrite T; apply Split_length).
  split; [exact L|]. rewrite parse_decode. split.
  - destruct (decode_values_cases (tokenize p body) Metrics_zero)
      as [[N E]|[(N & _ & E)|(N & f & m & k & _ & _ & E)]]; rewrite E; cbn;
      rewrite L in N.
    + symmetry. apply negb_true_iff, Nat.eqb_neq. lia.
    + injection N as ->. reflexivity.
    + injection N as ->. reflexivity.
  - intros N. rewrite decode_values_count by (rewrite L; lia).
    rewrite L. repeat f_equal. lia.
Qed.

Lemma comma_count_witness :
  parse part_b ""
  = Some (Metrics_zero,
          Some (errorf_d "unexpected number of metrics: expected 7, got %d" 1)).
Proof.
  apply (proj2 (proj2 (comma_count part_b "" ltac:(discriminate)))).
  cbn. lia.
Defined.

(** ** White space around the payload *)

Lemma ascii_space_width (c : ascii) (r : string) :
  ascii_space c = true -> strings.space_width (String c r) = 1%nat.
Proof.
  unfold ascii_space, strings.space_width, strings.b. intros H. rewrite H.
  reflexivity.
Qed.

Lemma ascii_space_low (c : ascii) :
  ascii_space c = true -> strconv.byte_val c < 128.
Proof.
  unfold ascii_space. intros H.
  repeat (apply orb_true_iff in H as [H|H]); apply Z.eqb_eq in H; lia.
Qed.

(** A white space character of ASCII appended to a string does not complete
    a white space character of several bytes. *)
Lemma space_width_snoc (x : string) (c : ascii) :
  ascii_space c = true -> x <> EmptyString ->
  strings.space_width (x ++ String c EmptyString) = strings.space_width x.
Proof.
  intros Hc Hx. pose proof (ascii_space_low c Hc) as Hl.
  destruct x as [|a [|a2 [|a3 r]]]; [congruence| | |reflexivity];
    cbn [append strings.space_width].
  - destruct ((strings.b a =? 9) || _ || _ || _ || _ || _); [reflexivity|].
    low_byte Hl. cbn [orb andb].
    destruct (strings.b a =? 194); reflexivity.
  - destruct ((strings.b a =? 9) || _ || _ || _ || _ || _); [reflexivity|].
    destruct ((strings.b a =? 194) && _); [reflexivity|].
    low_byte Hl. cbn [orb andb].
    rewrite !andb_false_r. reflexivity.
Qed.

Lemma Fields_from_snoc (c : ascii) (s : string) :
  ascii_space c = true ->
  forall skip tok,
    strings.Fields_from (s ++ String c EmptyString) skip tok
    = strings.Fields_from s skip tok.
Proof.
  intros Hc. induction s as [|a s IH]; intros skip tok.
  - cbn [append strings.Fields_from].
    destruct skip; [|reflexivity].
    rewrite (ascii_space_width c EmptyString Hc). cbn [strings.Fields_from].
    apply app_nil_r.
  - cbn [append strings.Fields_from].
    destruct skip as [|k]; [|apply IH].
    change (String a (s ++ String c EmptyString))
      with (String a s ++ String c EmptyString).
    rewrite (space_width_snoc (String a s) c Hc) by discriminate.
    destruct (strings.space_width (String a s)); rewrite IH; reflexivity.
Qed.

Lemma Fields_padded (lead trail body : string) :
  all_bytes ascii_space lead = true -> all_bytes ascii_space trail = true ->
  strings.Fields (lead ++ body ++ trail) = strings.Fields body.
Proof.
  intros Hl Ht. unfold strings.Fields.
  induction lead as [|c lead IH].
  - cbn [append]. clear Hl.
    revert body. induction trail as [|c trail IH]; intros body.
    + rewrite append_nil_r. reflexivity.
    + cbn [all_bytes] in Ht. apply andb_true_iff in Ht as [Hc Ht].
      change (body ++ String c trail)
        with (body ++ (String c EmptyString ++ trail)).
      rewrite <- append_assoc, (IH Ht).
      apply Fields_from_snoc, Hc.
  - cbn [all_bytes] in Hl. apply andb_true_iff in Hl as [Hc Hl].
    cbn [append strings.Fields_from].
    rewrite (ascii_space_width c _ Hc). cbn [strings.flush app].
    apply IH, Hl.
Qed.

(** [main.go] ignores the white space of ASCII before and after the payload:
    a body that ends with a line feed, or starts with spaces, has the result
    of the body without them. *)
Theorem surrounding_space_ignored (lead trail body : string) :
  all_bytes ascii_space lead = true -> all_bytes ascii_space trail = true ->
  parse main_go (lead ++ body ++ trail) = parse main_go body.
Proof.
  intros Hl Ht. rewrite !parse_decode. cbn [tokenize].
  rewrite (Fields_padded lead trail body Hl Ht). reflexivity.
Qed.

Lemma surrounding_space_ignored_witness :
  parse main_go ("  " ++ "1 2 3 4 5 6 7" ++ String (ascii_of_nat 10) EmptyString)
  = parse main_go "1 2 3 4 5 6 7".
Proof.
  apply (surrounding_space_ignored "  " (String (ascii_of_nat 10) EmptyString)
           "1 2 3 4 5 6 7"); reflexivity.
Defined.

(** ** A byte after the payload, in the programs of [part_000] *)

Lemma Split_snoc (s : string) (sep c : ascii) :
  Ascii.eqb c sep = false ->
  strings.Split (s ++ String c EmptyString) sep
  = map_last (fun t => t ++ String c EmptyString) (strings.Split s sep).
Proof.
  intros Hc. induction s as [|x s IH].
  - cbn. rewrite Hc. reflexivity.
  - cbn [append strings.Split]. rewrite IH.
    destruct (strings.Split s sep) as [|t ts] eqn:E;
      [exfalso; revert E; apply Split_not_nil|].
    destruct (Ascii.eqb x sep); destruct ts; reflexivity.
Qed.

Lemma not_numeral_snoc (x : string) (c : ascii) :
  is_digit c = false -> numeral (x ++ String c EmptyString) = false.
Proof.
  intros Hc.
  assert (A : all_digits (x ++ String c EmptyString) = false).
  { rewrite all_digits_app. cbn. rewrite Hc. apply andb_false_r. }
  destruct x; cbn [append numeral]; exact A.
Qed.

Lemma valid_int_snoc (t : string) (c : ascii) :
  is_digit c = false -> valid_int (t ++ String c EmptyString) = false.
Proof.
  intros Hc. unfold valid_int.
  assert (S : signed_numeral (t ++ String c EmptyString) = None);
    [|rewrite S; reflexivity].
  destruct t as [|a r]; cbn [append]; unfold signed_numeral.
  - assert (N : numeral (String c EmptyString) = false)
      by exact (not_numeral_snoc EmptyString c Hc).
    rewrite N. change (numeral EmptyString) with false.
    destruct (strconv.byte_val c =? 45), (strconv.byte_val c =? 43);
      reflexivity.
  - assert (N : numeral (String a (r ++ String c EmptyString)) = false)
      by exact (not_numeral_snoc (String a r) c Hc).
    rewrite N, (not_numeral_snoc r c Hc).
    destruct (strconv.byte_val a =? 45), (strconv.byte_val a =? 43);
      reflexivity.
Qed.

Lemma map_last_seven (h : string -> string) (ts : list string) :
  List.length ts = 7%nat ->
  List.length (map_last h ts) = 7%nat
  /\ token fNetworkLoadBytesPerSecond (map_last h ts)
     = h (token fNetworkLoadBytesPerSecond ts)
  /\ forall g, (field_index g < 6)%nat ->
               token g (map_last h ts) = token g ts.
Proof.
  intros L.
  destruct ts as [|t0 [|t1 [|t2 [|t3 [|t4 [|t5 [|t6 [|t7 ts]]]]]]]];
    try discriminate L.
  repeat split. intros [] H; cbn in H; try lia; reflexivity.
Qed.

(** In the programs of [part_000], a body that parses no longer does once a
    byte that is neither a digit nor a comma follows it, a line feed for
    instance: the last token is no longer a number and the parser fails with
    the conversion error of the last field. *)
Theorem trailing_byte_rejected (p : program) (body : string) (c : ascii)
    (m : Metrics) :
  p <> main_go ->
  parse p body = Some (m, None) ->
  is_digit c = false -> Ascii.eqb c "," = false ->
  exists m' k,
    parse p (body ++ String c EmptyString)
    = Some (m', Some (conversion_error fNetworkLoadBytesPerSecond
                        (NumError "Atoi"
                           (token fNetworkLoadBytesPerSecond (tokenize p body)
                            ++ String c EmptyString) k))).
Proof.
  intros Hp H Hd Hc.
  destruct (parse_success p body m H) as (L & V & _).
  assert (T : forall b, tokenize p b = strings.Split b ",")
    by (intros b; destruct p; [congruence | reflexivity | reflexivity]).
  rewrite parse_decode, (T (body ++ String c EmptyString)), Split_snoc by exact Hc.
  rewrite <- (T body).
  set (h := fun t : string => t ++ String c EmptyString).
  destruct (map_last_seven h (tokenize p body) L) as (L' & Elast & Eother).
  destruct (decode_values_first_invalid (map_last h (tokenize p body))
              Metrics_zero fNetworkLoadBytesPerSecond L')
    as (m' & k & _ & E).
  - intros g Hg. rewrite (Eother g Hg). apply V.
  - rewrite Elast. apply valid_int_snoc, Hd.
  - rewrite Elast in E. eauto.
Qed.

Lemma trailing_byte_rejected_witness :
  exists m' k,
    parse part_a ("1,2,3,4,5,6,7" ++ String (ascii_of_nat 10) EmptyString)
    = Some (m', Some (conversion_error fNetworkLoadBytesPerSecond
                        (NumError "Atoi"
                           ("7" ++ String (ascii_of_nat 10) EmptyString) k))).
Proof.
  apply (trailing_byte_rejected part_a "1,2,3,4,5,6,7" (ascii_of_nat 10)
           (mkMetrics 1 2 3 4 5 6 7)).
  - discriminate.
  - reflexivity.
  - reflexivity.
  - reflexivity.
Defined.

(** ** Round trip for every snapshot *)

Lemma render_int_wide (n : Z) :
  0 <= n <= 2 ^ 63 ->
  numeral (render_int n) = true /\ numeral_value (render_int n) = n.
Proof.
  intros H. unfold render_int.
  destruct (digits_of_spec 19 n EmptyString ltac:(lia))
    as (ds & E & Hne & Hall & Hv).
  { change (10 ^ Z.of_nat 19) with 10000000000000000000. int_consts. lia. }
  rewrite E, append_nil_r. split; [|exact Hv].
  destruct ds; [congruence | exact Hall].
Qed.

Lemma Itoa_valid (n : Z) :
  Int.in_range n ->
  valid_int (Itoa n) = true /\ int_of (Itoa n) = n /\ word (Itoa n) = true.
Proof.
  intros R. unfold Itoa. destruct (Z.ltb_spec n 0) as [Hn|Hn].
  - destruct (render_int_wide (- n) ltac:(int_consts; lia)) as [A B].
    pose proof (numeral_word _ A) as W.
    unfold valid_int, int_of, signed_numeral.
    change (strconv.byte_val "-" =? 45) with true. cbv iota.
    rewrite A, B. replace (- - n) with n by lia.
    split; [|split; [reflexivity|]].
    + apply andb_true_iff. split; apply Z.leb_le; apply R.
    + destruct (render_int (- n)) as [|c ds] eqn:E; [discriminate A|].
      unfold word in *. cbn [all_bytes] in *. rewrite W. reflexivity.
  - destruct (render_int_wide n ltac:(int_consts; lia)) as [A B].
    destruct (numeral_valid _ A ltac:(rewrite B; apply R)) as [V I].
    rewrite I, B. auto using numeral_word.
Qed.

(** Rendering a snapshot of [int]s, negative ones included, with the
    separator of the program and parsing the result gives the snapshot back. *)
Theorem signed_round_trip (p : program) (m : Metrics) :
  (forall f, Int.in_range (field_get f m)) ->
  parse p (render_signed (separator p) m) = Some (m, None).
Proof.
  intros R. unfold render_signed. rewrite parse_decode, tokenize_concat.
  - rewrite decode_values_valid.
    + unfold snapshot_of. rewrite !token_map.
      rewrite !(fun f => proj1 (proj2 (Itoa_valid _ (R f)))).
      destruct m; reflexivity.
    + reflexivity.
    + intros g. rewrite token_map. apply Itoa_valid, R.
  - discriminate.
  - intros t Ht. apply in_map_iff in Ht as (f & <- & _).
    apply Itoa_valid, R.
Qed.

Lemma signed_round_trip_witness :
  parse part_b "-5,1000,-900,0,-9223372036854775808,9223372036854775807,7"
  = Some (mkMetrics (-5) 1000 (-900) 0 Int.MinInt Int.MaxInt 7, None).
Proof.
  apply (signed_round_trip part_b
           (mkMetrics (-5) 1000 (-900) 0 Int.MinInt Int.MaxInt 7)).
  intros []; vm_compute; split; discriminate.
Defined.

(** ** Failures nobody sees *)

Lemma MainGo_lines (get : GetResult) (fc : Z) (o : Outcome) :
  checkMetrics main_go get fc = Some o ->
  forallb (fun l => is_alert l || is_unavailable l) (written o) = true.
Proof.
  destruct (getMetrics_total main_go get) as (m & [e|] & E).
  - cbn [checkMetrics getMetrics] in *. unfold MainGo.checkMetrics.
    rewrite E. intros H. injection H as <-. cbn [written].
    destruct (3 <=? Int.add fc 1); reflexivity.
  - rewrite (checkMetrics_success main_go get fc m E).
    intros H. injection H as <-. cbn [written].
    pose proof (evaluate_only_alerts main_go m) as A.
    rewrite forallb_forall in *. intros l Hl. rewrite (A l Hl). reflexivity.
Qed.

Lemma cycles_MainGo_lines (gets : list GetResult) :
  forall fc os,
    cycles (checkMetrics main_go) gets fc = map Some os ->
    forall o, In o os ->
      forallb (fun l => is_alert l || is_unavailable l) (written o) = true.
Proof.
  induction gets as [|g gets IH]; intros fc os H o Ho.
  - destruct os; [contradiction | discriminate H].
  - cbn [cycles] in H.
    destruct (checkMetrics main_go g fc) as [o1|] eqn:C.
    + destruct os as [|o2 os]; [discriminate H|].
      cbn [map] in H. injection H as <- H.
      destruct Ho as [<-|Ho].
      * apply (MainGo_lines g fc). exact C.
      * apply (IH _ _ H o Ho).
    + destruct os as [|o2 os]; discriminate H.
Qed.

Lemma only_alerts_left (lines : list line) :
  forallb (fun l => is_alert l || is_unavailable l) lines = true ->
  existsb is_unavailable lines = false ->
  forallb is_alert lines = true.
Proof.
  induction lines as [|l lines IH]; cbn; [reflexivity|].
  intros H U. apply andb_true_iff in H as [Hl H].
  apply orb_false_iff in U as [Ul U].
  rewrite Ul, orb_false_r in Hl. rewrite Hl, (IH H U). reflexivity.
Qed.

(** [main.go] writes nothing about a failure before the third in a row: in a
    run where no three consecutive cycles fail, every line written is an
    alert, and the errors [checkMetrics] returns are dropped by [main]. The
    programs of [part_000] print the error of every failing cycle. *)
Theorem unseen_failures (gets : list GetResult) :
  Z.of_nat (List.length gets) <= Int.MaxInt ->
  (forall i, (i < List.length gets)%nat ->
             (consecutive_failures (failed (getMetrics main_go)) (upto i gets)
              < 3)%nat) ->
  (exists os,
      cycles (checkMetrics main_go) gets 0 = map Some os
      /\ List.length os = List.length gets
      /\ forall o, In o os -> forallb is_alert (written o) = true)
  /\ (forall p get fc m e,
        p <> main_go -> getMetrics p get = Some (m, Some e) ->
        exists o rest,
          checkMetrics p get fc = Some o /\ written o = ErrorLine e :: rest).
Proof.
  intros Hlen Hfew. split.
  - destruct (cycles_spec main_go gets [] 0 eq_refl Hlen) as (os & E & L & H).
    exists os. split; [exact E|]. split; [exact L|].
    intros o Ho. apply only_alerts_left.
    + apply (cycles_MainGo_lines gets 0 os E o Ho).
    + destruct (In_nth_error _ _ Ho) as [i Hi].
      assert (Hlt : (i < List.length gets)%nat).
      { rewrite <- L. apply nth_error_Some. congruence. }
      destruct (nth_error gets i) as [g|] eqn:Hg;
        [|apply nth_error_None in Hg; lia].
      destruct (H i o g Hi Hg) as (C & U & _). cbn [app] in C.
      fold (unavailable o). rewrite U, C.
      specialize (Hfew i Hlt).
      destruct (Z.leb_spec 3
                  (Z.of_nat (consecutive_failures (failed (getMetrics main_go))
                               (upto i gets)))); [lia|].
      apply andb_false_r.
  - intros p get fc m e Hp E.
    destruct p; [congruence| |]; cbn [checkMetrics getMetrics] in *;
      unfold PartA.checkMetrics, PartB.checkMetrics; rewrite E;
      eexists; eexists; split; reflexivity.
Qed.

Lemma unseen_failures_witness :
  exists os,
    cycles (checkMetrics main_go)
      [refused; refused; respond "1 2 3 4 5 6 7"; refused] 0
    = map Some os
    /\ List.length os = 4%nat
    /\ forall o, In o os -> forallb is_alert (written o) = true.
Proof.
  apply (unseen_failures
           [refused; refused; respond "1 2 3 4 5 6 7"; refused]).
  - vm_compute. discriminate.
  - intros i Hi. cbn in Hi.
    do 4 (destruct i as [|i]; [vm_compute; lia|]). lia.
Defined.

(** ** Runs of the loop *)

Lemma last_cons (A : Type) (l : list A) :
  forall a d : A, last (a :: l) d = last l a.
Proof.
  induction l as [|b l IH]; intros a d; [reflexivity|].
  change (last (a :: b :: l) d) with (last (b :: l) d).
  rewrite (IH b d), (IH b a). reflexivity.
Qed.

Lemma ticks_from (p : program) (gets : list GetResult) :
  forall fc out,
    exists os,
      cycles (checkMetrics p) gets fc = map Some os
      /\ fold_left (iteration (checkMetrics p) (on_quit p)) (map Tick gets)
           (mkLoop Idle fc out)
         = mkLoop Idle (last (map counter os) fc)
             (out ++ List.concat (map written os)).
Proof.
  induction gets as [|g gets IH]; intros fc out.
  - exists []. cbn. rewrite app_nil_r. auto.
  - destruct (checkMetrics_total p g fc) as [o C].
    destruct (IH (counter o) (out ++ written o)%list) as (os & E & F).
    exists (o :: os). cbn [cycles map fold_left List.concat].
    unfold iteration at 2. cbn [at_phase failuresCount stdout].
    rewrite C, E, F, last_cons, <- app_assoc. auto.
Qed.

(** A run that only ticks is the succession of its cycles: the loop is idle
    again after it, the counter is the one the last cycle left, and the output
    is the lines of the cycles one after the other. *)
Theorem main_runs_cycles (p : program) (gets : list GetResult) :
  exists os,
    cycles (checkMetrics p) gets 0 = map Some os
    /\ List.length os = List.length gets
    /\ main (checkMetrics p) (on_quit p) (map Tick gets)
       = mkLoop Idle (last (map counter os) 0) (List.concat (map written os)).
Proof.
  destruct (ticks_from p gets 0 []) as (os & E & F).
  exists os. split; [exact E|]. split; [|exact F].
  apply (f_equal (@List.length _)) in E.
  rewrite length_map in E. rewrite <- E. clear.
  generalize 0. induction gets as [|g gets IH]; intros fc; [reflexivity|].
  cbn [cycles]. destruct (checkMetrics_total p g fc) as [o C]. rewrite C.
  cbn [List.length]. rewrite IH. reflexivity.
Qed.

(** The signal ends the run: the events after it change nothing, no cycle
    runs and no line is written; and the first signal leaves the counter as it
    is and writes what the program writes on shutdown, "Shutting down..." in
    [main.go] and nothing in the programs of [part_000]. *)
Theorem quit_ends_the_run (p : program) (before after : list event) :
  main (checkMetrics p) (on_quit p) (before ++ Quit :: after)
  = main (checkMetrics p) (on_quit p) (before ++ [Quit])
  /\ (existsb is_quit before = false ->
      main (checkMetrics p) (on_quit p) (before ++ [Quit])
      = mkLoop Terminated
          (failuresCount (main (checkMetrics p) (on_quit p) before))
          (stdout (main (checkMetrics p) (on_quit p) before)
           ++ match p with main_go => [ShuttingDown] | _ => [] end)).
Proof.
  unfold main. split.
  - change (before ++ Quit :: after)%list
      with (before ++ [Quit] ++ after)%list.
    rewrite app_assoc, fold_left_app.
    apply main_terminated.
    rewrite main_phase by reflexivity.
    rewrite existsb_app. cbn. rewrite orb_true_r. reflexivity.
  - intros H. rewrite fold_left_app. cbn [fold_left].
    pose proof (main_phase p before main_init eq_refl) as Ph.
    rewrite H in Ph. unfold iteration at 1. rewrite Ph.
    destruct p; reflexivity.
Qed.

Lemma quit_ends_the_run_witness :
  main (checkMetrics main_go) (on_quit main_go) ([Tick refused] ++ [Quit])
  = mkLoop Terminated
      (failuresCount (main (checkMetrics main_go) (on_quit main_go)
                        [Tick refused]))
      (stdout (main (checkMetrics main_go) (on_quit main_go) [Tick refused])
       ++ [ShuttingDown]).
Proof.
  apply (proj2 (quit_ends_the_run main_go [Tick refused] [])).
  reflexivity.
Defined.
